(** * net/proxy/proxy_config_service_win.cc

    A shallow embedding of [ProxyConfigServiceWin], the Windows proxy
    configuration service: a polling service (base class
    [PollingProxyConfigService]) that additionally watches three registry keys
    and asks the base class to re-check the configuration whenever one of
    them is signalled.

    The operating system (registry, event objects, WinHTTP) and the helper
    libraries of the code base (base/, net/proxy/proxy_config.h) are not part
    of the translated file; they are interfaces ([Win32], [Chromium]) over
    which every definition and theorem is parametric.  Calls that leave the
    translated file are recorded, in program order, in a call log. *)

From Stdlib Require Import ZArith String Ascii.
From stdpp Require Import base list.

Local Open Scope Z_scope.

(** ** Plain data *)

(** [HANDLE]: an opaque kernel handle value. *)
Definition HANDLE := Z.

(** [HKEY]: the two predefined roots the file names, or any other key handle. *)
Inductive HKEY :=
| HKEY_CURRENT_USER
| HKEY_LOCAL_MACHINE
| HKEY_of_handle (h : HANDLE).

(** Wide strings ([wchar_t*], [LPWSTR]) as sequences of 16-bit code units. *)
Definition wstring := list N.

(** [L"..."]: a wide literal with ASCII content. *)
Definition L (s : string) : wstring := map N_of_ascii (list_ascii_of_string s).

(** A nullable [LPWSTR]. *)
Definition LPWSTR := option wstring.

(** [KEY_NOTIFY] (winnt.h). *)
Definition KEY_NOTIFY : Z := 16.

(** [Observer*]: the address of an observer object. *)
Definition Observer := Z.

(** [const int kPollIntervalSec = 10;] *)
Definition kPollIntervalSec : Z := 10.

(** [WINHTTP_CURRENT_USER_IE_PROXY_CONFIG] (winhttp.h), fields as the file
    reads them. *)
Record WINHTTP_CURRENT_USER_IE_PROXY_CONFIG := {
  fAutoDetect : bool;
  lpszAutoConfigUrl : LPWSTR;
  lpszProxy : LPWSTR;
  lpszProxyBypass : LPWSTR
}.

(** [WINHTTP_CURRENT_USER_IE_PROXY_CONFIG ie_config = {0};] *)
Definition ie_config_zero : WINHTTP_CURRENT_USER_IE_PROXY_CONFIG :=
  {| fAutoDetect := false; lpszAutoConfigUrl := None;
     lpszProxy := None; lpszProxyBypass := None |}.

(** ** The interfaces the file is written against *)

(** The operating system.  [OS] is its state; every call is a transition that
    also yields the call's result and the updated object it was made on. *)
Class Win32 := {
  OS : Type;
  (** [base::win::RegKey] and [base::ObjectWatcher] objects. *)
  RegKey : Type;
  ObjectWatcher : Type;
  RegKey_new : RegKey;
  ObjectWatcher_new : ObjectWatcher;
  (** [RegKey::Create(rootkey, subkey, access)] *)
  RegKey_Create : HKEY -> wstring -> Z -> RegKey -> OS -> bool * RegKey * OS;
  (** [RegKey::StartWatching()] *)
  RegKey_StartWatching : RegKey -> OS -> bool * RegKey * OS;
  (** [RegKey::watch_event()] *)
  RegKey_watch_event : RegKey -> HANDLE;
  (** [ObjectWatcher::StartWatching(object, delegate)]; the delegate is always
      the one service object. *)
  ObjectWatcher_StartWatching :
    HANDLE -> ObjectWatcher -> OS -> bool * ObjectWatcher * OS;
  (** The destructors run when a [KeyEntry] is deleted. *)
  RegKey_delete : RegKey -> OS -> OS;
  ObjectWatcher_delete : ObjectWatcher -> OS -> OS;
  (** [WinHttpGetIEProxyConfigForCurrentUser(&ie_config)] *)
  WinHttpGetIEProxyConfigForCurrentUser :
    WINHTTP_CURRENT_USER_IE_PROXY_CONFIG -> OS ->
    bool * WINHTTP_CURRENT_USER_IE_PROXY_CONFIG * OS;
  GetLastError : OS -> Z
}.

(** The helper code of base/ and net/ the file calls. *)
Class Chromium := {
  (** Whether [DCHECK] is compiled in (debug build) or not (release build). *)
  dcheck_is_on : bool;
  (** [base::TimeDelta] *)
  TimeDelta : Type;
  TimeDelta_FromSeconds : Z -> TimeDelta;
  (** [WideToASCII] *)
  WideToASCII : wstring -> string;
  (** The tokens that [StringTokenizer(input, delims)] yields through
      [GetNext()]/[token()], in order. *)
  StringTokenizer : string -> string -> list string;
  (** [GURL] and its constructor from a wide string. *)
  GURL : Type;
  GURL_of : wstring -> GURL;
  (** The part of [ProxyConfig::ProxyRules] other than [bypass_rules]. *)
  ProxyServers : Type;
  (** [ProxyBypassRules] and [AddRuleFromString]. *)
  ProxyBypassRules : Type;
  AddRuleFromString : string -> ProxyBypassRules -> ProxyBypassRules
}.

Section Service.

Context `{W32 : Win32} `{Chr : Chromium}.

(** *** ProxyConfig *)

(** [ProxyConfig::ProxyRules]: [bypass_rules] is a public member, the rest is
    what [ParseFromString] fills in. *)
Record ProxyRules := {
  servers : ProxyServers;
  bypass_rules : ProxyBypassRules
}.

(** Modelled from the spec: [ProxyConfig] (net/proxy/proxy_config.h is not among
    the translated sources); a snapshot holding the auto-detect flag, the proxy
    rules with their bypass rules, and the PAC URL. *)
Record ProxyConfig := {
  auto_detect_ : bool;
  proxy_rules_ : ProxyRules;
  pac_url_ : GURL
}.

Definition set_auto_detect (b : bool) (c : ProxyConfig) : ProxyConfig :=
  {| auto_detect_ := b; proxy_rules_ := proxy_rules_ c; pac_url_ := pac_url_ c |}.

Definition set_pac_url (u : GURL) (c : ProxyConfig) : ProxyConfig :=
  {| auto_detect_ := auto_detect_ c; proxy_rules_ := proxy_rules_ c; pac_url_ := u |}.

Definition set_proxy_rules (r : ProxyRules) (c : ProxyConfig) : ProxyConfig :=
  {| auto_detect_ := auto_detect_ c; proxy_rules_ := r; pac_url_ := pac_url_ c |}.

Definition set_bypass_rules (b : ProxyBypassRules) (r : ProxyRules) : ProxyRules :=
  {| servers := servers r; bypass_rules := b |}.

(** [ProxyConfig::ProxyRules::ParseFromString] and [ProxyConfig::CreateDirect]
    live in net/proxy/proxy_config.cc. *)
Variable ParseFromString : string -> ProxyRules -> ProxyRules.
Variable CreateDirect : ProxyConfig.

(** *** The world outside the service object *)

(** Calls that leave the file, with their results. *)
Inductive Call :=
| Call_RegKey_Create (rootkey : HKEY) (subkey : wstring) (access : Z) (ok : bool)
| Call_RegKey_StartWatching (watch_event : HANDLE) (ok : bool)
| Call_ObjectWatcher_StartWatching (object : HANDLE) (ok : bool)
| Call_delete_KeyEntry (watch_event : HANDLE)
| Call_WinHttpGetIEProxyConfigForCurrentUser (ok : bool)
| Call_LOG_ERROR (last_error : Z)
| Call_GlobalFree (p : wstring)
| Call_PollingProxyConfigService_AddObserver (observer : Observer)
| Call_CheckForChangesNow.

Record World := {
  os : OS;
  calls : list Call
}.

(** How a run can stop short: the debug assertion fires, or the release build
    dereferences [keys_to_watch_.end()]. *)
Inductive Fault :=
| DCHECK_failed
| end_iterator_dereferenced.

Inductive Result (A : Type) :=
| Done (a : A) (w : World)
| Crash (f : Fault) (w : World).
Arguments Done {A} a w.
Arguments Crash {A} f w.

Definition M (A : Type) := World -> Result A.

Definition ret {A} (a : A) : M A := fun w => Done a w.

Definition bind {A B} (m : M A) (k : A -> M B) : M B :=
  fun w => match m w with
           | Done a w' => k a w'
           | Crash f w' => Crash f w'
           end.

Definition crash {A} (f : Fault) : M A := fun w => Crash f w.

(** Record a call. *)
Definition call (c : Call) : M unit :=
  fun w => Done tt {| os := os w; calls := calls w ++ [c] |}.

(** Run a transition of the operating system. *)
Definition sys {A} (f : OS -> A * OS) : M A :=
  fun w => let '(a, o) := f (os w) in Done a {| os := o; calls := calls w |}.

Definition sys_ (f : OS -> OS) : M unit :=
  fun w => Done tt {| os := f (os w); calls := calls w |}.

Notation "'let!' x ':=' m 'in' k" := (bind m (fun x => k))
  (at level 10, x name, m at level 100, k at level 200).
Notation "'let!' ' p ':=' m 'in' k" :=
  (bind m (fun x => match x with p => k end))
  (at level 10, p pattern, m at level 100, k at level 200).
Notation "m ;;; k" := (bind m (fun _ => k))
  (at level 100, right associativity).

(** [DCHECK(cond)] *)
Definition DCHECK (cond : bool) : M unit :=
  if dcheck_is_on && negb cond then crash DCHECK_failed else ret tt.

(** *** KeyEntry: RegKey and ObjectWatcher pair *)

Record KeyEntry := {
  key_ : RegKey;
  watcher_ : ObjectWatcher
}.

Definition KeyEntry_new : KeyEntry :=
  {| key_ := RegKey_new; watcher_ := ObjectWatcher_new |}.

Definition watch_event (e : KeyEntry) : HANDLE := RegKey_watch_event (key_ e).

Definition KeyEntry_StartWatching (e : KeyEntry) : M (bool * KeyEntry) :=
  let! '(ok, k) := sys (RegKey_StartWatching (key_ e)) in
  call (Call_RegKey_StartWatching (RegKey_watch_event k) ok) ;;;
  let e := {| key_ := k; watcher_ := watcher_ e |} in
  if negb ok then ret (false, e) else
  let! '(ok, wt) := sys (ObjectWatcher_StartWatching (watch_event e) (watcher_ e)) in
  call (Call_ObjectWatcher_StartWatching (watch_event e) ok) ;;;
  let e := {| key_ := key_ e; watcher_ := wt |} in
  if negb ok then ret (false, e) else
  ret (true, e).

Definition KeyEntry_CreateRegKey (rootkey : HKEY) (subkey : wstring)
    (e : KeyEntry) : M (bool * KeyEntry) :=
  let! '(ok, k) := sys (RegKey_Create rootkey subkey KEY_NOTIFY (key_ e)) in
  call (Call_RegKey_Create rootkey subkey KEY_NOTIFY ok) ;;;
  ret (ok, {| key_ := k; watcher_ := watcher_ e |}).

(** [scoped_ptr<KeyEntry>] going out of scope: members are destroyed in
    reverse order of declaration. *)
Definition KeyEntry_delete (e : KeyEntry) : M unit :=
  sys_ (ObjectWatcher_delete (watcher_ e)) ;;;
  sys_ (RegKey_delete (key_ e)) ;;;
  call (Call_delete_KeyEntry (watch_event e)).

(** *** ProxyConfigServiceWin *)

(** The object: the two arguments it hands to the constructor of its base
    class, and its own member [keys_to_watch_]. *)
Record ProxyConfigServiceWin := {
  poll_interval : TimeDelta;
  get_config_func : ProxyConfig -> M ProxyConfig;
  keys_to_watch_ : list KeyEntry
}.

Definition set_keys_to_watch (keys : list KeyEntry) (this : ProxyConfigServiceWin)
    : ProxyConfigServiceWin :=
  {| poll_interval := poll_interval this;
     get_config_func := get_config_func this;
     keys_to_watch_ := keys |}.

Definition FreeIEConfig (ie_config : WINHTTP_CURRENT_USER_IE_PROXY_CONFIG) : M unit :=
  (if lpszAutoConfigUrl ie_config is Some p then call (Call_GlobalFree p) else ret tt) ;;;
  (if lpszProxy ie_config is Some p then call (Call_GlobalFree p) else ret tt) ;;;
  (if lpszProxyBypass ie_config is Some p then call (Call_GlobalFree p) else ret tt).

(** The [while (GetNext())] loop over the bypass list. *)
Fixpoint add_bypass_rules (tokens : list string) (b : ProxyBypassRules)
    : ProxyBypassRules :=
  match tokens with
  | [] => b
  | bypass_url_domain :: rest =>
      add_bypass_rules rest (AddRuleFromString bypass_url_domain b)
  end.

(** The delimiters ["; \t\n\r"]. *)
Definition bypass_delims : string :=
  String ";" (String " " (String (ascii_of_nat 9) (String (ascii_of_nat 10)
    (String (ascii_of_nat 13) EmptyString)))).

Definition SetFromIEConfig (config : ProxyConfig)
    (ie_config : WINHTTP_CURRENT_USER_IE_PROXY_CONFIG) : ProxyConfig :=
  let config :=
    if fAutoDetect ie_config then set_auto_detect true config else config in
  let config :=
    match lpszProxy ie_config with
    | Some p =>
        set_proxy_rules (ParseFromString (WideToASCII p) (proxy_rules_ config)) config
    | None => config
    end in
  let config :=
    match lpszProxyBypass ie_config with
    | Some p =>
        let proxy_bypass := WideToASCII p in
        let proxy_server_bypass_list := StringTokenizer proxy_bypass bypass_delims in
        set_proxy_rules
          (set_bypass_rules
             (add_bypass_rules proxy_server_bypass_list
                (bypass_rules (proxy_rules_ config)))
             (proxy_rules_ config))
          config
    | None => config
    end in
  match lpszAutoConfigUrl ie_config with
  | Some p => set_pac_url (GURL_of p) config
  | None => config
  end.

Definition GetCurrentProxyConfig (config : ProxyConfig) : M ProxyConfig :=
  let! '(ok, ie_config) := sys (WinHttpGetIEProxyConfigForCurrentUser ie_config_zero) in
  call (Call_WinHttpGetIEProxyConfigForCurrentUser ok) ;;;
  if negb ok then
    let! err := sys (fun o => (GetLastError o, o)) in
    call (Call_LOG_ERROR err) ;;;
    ret CreateDirect
  else
    let config := SetFromIEConfig config ie_config in
    FreeIEConfig ie_config ;;;
    ret config.

(** The constructor. *)
Definition ProxyConfigServiceWin_new : ProxyConfigServiceWin :=
  {| poll_interval := TimeDelta_FromSeconds kPollIntervalSec;
     get_config_func := GetCurrentProxyConfig;
     keys_to_watch_ := [] |}.

(** [STLDeleteElements(&keys_to_watch_)] *)
Fixpoint STLDeleteElements (keys : list KeyEntry) : M unit :=
  match keys with
  | [] => ret tt
  | entry :: rest => KeyEntry_delete entry ;;; STLDeleteElements rest
  end.

(** The destructor. *)
Definition ProxyConfigServiceWin_delete (this : ProxyConfigServiceWin) : M unit :=
  STLDeleteElements (keys_to_watch_ this).

Definition AddKeyToWatchList (rootkey : HKEY) (subkey : wstring)
    (this : ProxyConfigServiceWin) : M (bool * ProxyConfigServiceWin) :=
  let entry := KeyEntry_new in
  let! '(ok, entry) := KeyEntry_CreateRegKey rootkey subkey entry in
  if negb ok then KeyEntry_delete entry ;;; ret (false, this) else
  let! '(ok, entry) := KeyEntry_StartWatching entry in
  if negb ok then KeyEntry_delete entry ;;; ret (false, this) else
  ret (true, set_keys_to_watch (keys_to_watch_ this ++ [entry]) this).

Definition internet_settings : wstring :=
  L "Software\Microsoft\Windows\CurrentVersion\Internet Settings".

Definition policies_internet_settings : wstring :=
  L "SOFTWARE\Policies\Microsoft\Windows\CurrentVersion\Internet Settings".

Definition StartWatchingRegistryForChanges (this : ProxyConfigServiceWin)
    : M ProxyConfigServiceWin :=
  if negb (bool_decide (length (keys_to_watch_ this) = 0%nat)) then
    ret this  (* Already initialized. *)
  else
    let! '(_, this) := AddKeyToWatchList HKEY_CURRENT_USER internet_settings this in
    let! '(_, this) := AddKeyToWatchList HKEY_LOCAL_MACHINE internet_settings this in
    let! '(_, this) := AddKeyToWatchList HKEY_LOCAL_MACHINE policies_internet_settings this in
    ret this.

Definition AddObserver (observer : Observer) (this : ProxyConfigServiceWin)
    : M ProxyConfigServiceWin :=
  (* Lazily-initialize our registry watcher. *)
  let! this := StartWatchingRegistryForChanges this in
  (* Let the super-class do its work now. *)
  call (Call_PollingProxyConfigService_AddObserver observer) ;;;
  ret this.

(** The [for] loop of [OnObjectSignaled]: the position at which the iterator
    stops, [length keys] standing for [end()]. *)
Fixpoint find_signalled (object : HANDLE) (keys : list KeyEntry) : nat :=
  match keys with
  | [] => 0%nat
  | e :: rest =>
      if watch_event e =? object then 0%nat else S (find_signalled object rest)
  end.

Definition OnObjectSignaled (object : HANDLE) (this : ProxyConfigServiceWin)
    : M ProxyConfigServiceWin :=
  (* Figure out which registry key signalled this change. *)
  let it := find_signalled object (keys_to_watch_ this) in
  DCHECK (negb (bool_decide (it = length (keys_to_watch_ this)))) ;;;
  match keys_to_watch_ this !! it with
  | None => crash end_iterator_dereferenced
  | Some entry =>
      (* Keep watching the registry key. *)
      let! '(ok, entry) := KeyEntry_StartWatching entry in
      let this := set_keys_to_watch (<[it := entry]> (keys_to_watch_ this)) this in
      let this :=
        if negb ok then set_keys_to_watch (delete it (keys_to_watch_ this)) this
        else this in
      (* Have the PollingProxyConfigService test for changes. *)
      call Call_CheckForChangesNow ;;;
      ret this
  end.

(** What an attempt contributes to the watch set. *)
Definition contribution (ok : bool) (entry : KeyEntry) : list KeyEntry :=
  if ok then [entry] else [].

(** *** Runs of the service *)

(** What reaches the object after construction: a subscription, or the
    message loop delivering a signalled handle. *)
Inductive Op :=
| Op_AddObserver (observer : Observer)
| Op_OnObjectSignaled (object : HANDLE).

Definition run_op (op : Op) (this : ProxyConfigServiceWin) : M ProxyConfigServiceWin :=
  match op with
  | Op_AddObserver observer => AddObserver observer this
  | Op_OnObjectSignaled object => OnObjectSignaled object this
  end.

Fixpoint run_ops (ops : list Op) (this : ProxyConfigServiceWin)
    : M ProxyConfigServiceWin :=
  match ops with
  | [] => ret this
  | op :: rest => let! this := run_op op this in run_ops rest this
  end.


(** *** Reading the call log *)

Definition is_CheckForChangesNow (c : Call) : bool :=
  match c with Call_CheckForChangesNow => true | _ => false end.

(** How often the base class was asked to check for changes. *)
Definition checks (cs : list Call) : nat := length (filter is_CheckForChangesNow cs).

(** The registry locations that were opened, with the outcome of each. *)
Definition created (c : Call) : option (HKEY * wstring * bool) :=
  match c with
  | Call_RegKey_Create rootkey subkey _ ok => Some (rootkey, subkey, ok)
  | _ => None
  end.

Definition creations (cs : list Call) : list (HKEY * wstring * bool) := omap created cs.

(** Calls logged by a run that started in [w] and ended in [w']. *)
Definition new_calls (w w' : World) : list Call := drop (length (calls w)) (calls w').

Definition is_delete (c : Call) : bool :=
  match c with Call_delete_KeyEntry _ => true | _ => false end.

(** How many [KeyEntry] objects were deleted. *)
Definition deletes (cs : list Call) : nat := length (filter is_delete cs).

(** The watch events of the entries deleted, in order. *)
Definition deleted (c : Call) : option HANDLE :=
  match c with Call_delete_KeyEntry h => Some h | _ => None end.

(** The observers handed to the base class, in order. *)
Definition observer_added (c : Call) : option Observer :=
  match c with
  | Call_PollingProxyConfigService_AddObserver observer => Some observer
  | _ => None
  end.

Definition observers_added (cs : list Call) : list Observer := omap observer_added cs.

(** The strings released with [GlobalFree], in order. *)
Definition freed (c : Call) : option wstring :=
  match c with Call_GlobalFree p => Some p | _ => None end.

Definition frees (cs : list Call) : list wstring := omap freed cs.

(** The non-null strings of an IE configuration, in the order [FreeIEConfig]
    visits them. *)
Definition strings_of (ie_config : WINHTTP_CURRENT_USER_IE_PROXY_CONFIG)
    : list wstring :=
  option_list (lpszAutoConfigUrl ie_config) ++
  option_list (lpszProxy ie_config) ++
  option_list (lpszProxyBypass ie_config).

(** The handles successfully handed to an [ObjectWatcher]. *)
Definition watcher_armed_on (object : HANDLE) (cs : list Call) : Prop :=
  Call_ObjectWatcher_StartWatching object true ∈ cs.

(** Whether a run came to its end. *)
Definition succeeded {A} (r : Result A) : bool :=
  match r with Done _ _ => true | Crash _ _ => false end.

(** The watch fires and the subscriptions of a sequence of operations. *)
Definition is_fire (op : Op) : bool :=
  match op with Op_OnObjectSignaled _ => true | _ => false end.

Definition fires (ops : list Op) : nat := length (filter is_fire ops).

Definition subscriptions (ops : list Op) : list Observer :=
  omap (λ op, match op with Op_AddObserver o => Some o | _ => None end) ops.

(** *** Locations, and what one attempt to watch a location does *)

Definition HKEY_eqb (a b : HKEY) : bool :=
  match a, b with
  | HKEY_CURRENT_USER, HKEY_CURRENT_USER => true
  | HKEY_LOCAL_MACHINE, HKEY_LOCAL_MACHINE => true
  | HKEY_of_handle x, HKEY_of_handle y => x =? y
  | _, _ => false
  end.

Fixpoint wstring_eqb (a b : wstring) : bool :=
  match a, b with
  | [], [] => true
  | x :: a', y :: b' => N.eqb x y && wstring_eqb a' b'
  | _, _ => false
  end.

(** Whether the log shows a watch being set up for a location: the key
    created, then the registry watch and the object watcher armed, which is
    what [AddKeyToWatchList] logs exactly when it appends an entry. *)
Fixpoint watch_armed_for (rootkey : HKEY) (subkey : wstring) (cs : list Call) : bool :=
  match cs with
  | [] => false
  | c :: rest =>
      match c, rest with
      | Call_RegKey_Create r s _ true,
        Call_RegKey_StartWatching _ true
          :: Call_ObjectWatcher_StartWatching _ true :: _ =>
          (HKEY_eqb r rootkey && wstring_eqb s subkey)
          || watch_armed_for rootkey subkey rest
      | _, _ => watch_armed_for rootkey subkey rest
      end
  end.

(** The outcome of one attempt to watch a location, in terms of what the
    operating system answers: [kept] is what the attempt adds to the watch
    set, [w'] the world it leaves, [ok] what it returns. *)
Definition watch_attempt (rootkey : HKEY) (subkey : wstring) (w : World)
    (ok : bool) (kept : list KeyEntry) (w' : World) : Prop :=
  ∃ (created : bool) k o1,
    RegKey_Create rootkey subkey KEY_NOTIFY RegKey_new (os w) = (created, k, o1) ∧
    if created then
      ∃ (ok1 : bool) k1 o2,
        RegKey_StartWatching k o1 = (ok1, k1, o2) ∧
        if ok1 then
          ∃ (ok2 : bool) wt o3,
            ObjectWatcher_StartWatching (RegKey_watch_event k1) ObjectWatcher_new o2
              = (ok2, wt, o3) ∧
            if ok2 then
              ok = true ∧ kept = [{| key_ := k1; watcher_ := wt |}] ∧
              w' = {| os := o3;
                      calls := calls w ++
                        [Call_RegKey_Create rootkey subkey KEY_NOTIFY true;
                         Call_RegKey_StartWatching (RegKey_watch_event k1) true;
                         Call_ObjectWatcher_StartWatching
                           (RegKey_watch_event k1) true] |}
            else
              ok = false ∧ kept = [] ∧
              w' = {| os := RegKey_delete k1 (ObjectWatcher_delete wt o3);
                      calls := calls w ++
                        [Call_RegKey_Create rootkey subkey KEY_NOTIFY true;
                         Call_RegKey_StartWatching (RegKey_watch_event k1) true;
                         Call_ObjectWatcher_StartWatching
                           (RegKey_watch_event k1) false;
                         Call_delete_KeyEntry (RegKey_watch_event k1)] |}
        else
          ok = false ∧ kept = [] ∧
          w' = {| os := RegKey_delete k1 (ObjectWatcher_delete ObjectWatcher_new o2);
                  calls := calls w ++
                    [Call_RegKey_Create rootkey subkey KEY_NOTIFY true;
                     Call_RegKey_StartWatching (RegKey_watch_event k1) false;
                     Call_delete_KeyEntry (RegKey_watch_event k1)] |}
    else
      ok = false ∧ kept = [] ∧
      w' = {| os := RegKey_delete k (ObjectWatcher_delete ObjectWatcher_new o1);
              calls := calls w ++
                [Call_RegKey_Create rootkey subkey KEY_NOTIFY false;
                 Call_delete_KeyEntry (RegKey_watch_event k)] |}.

(** An entry erased by a watch fire stays out for good: when lazy
    initialization has armed the watch on one location only, and that entry
    fires and is erased, the location is never watched again, whatever
    operations follow. *)
Definition erased_location_stays_unwatched : Prop :=
  ∀ rootkey subkey observer w this w0 object this' w' ops this'' w'',
    run_ops [Op_AddObserver observer] ProxyConfigServiceWin_new w = Done this w0 →
    watch_armed_for rootkey subkey (new_calls w w0) = true →
    length (keys_to_watch_ this) = 1%nat →
    OnObjectSignaled object this w0 = Done this' w' →
    keys_to_watch_ this' = [] →
    run_ops ops this' w' = Done this'' w'' →
    watch_armed_for rootkey subkey (new_calls w' w'') = false.

(** Start-up is idempotent: once the first subscription has run it, running
    it again changes nothing. *)
Definition start_up_idempotent : Prop :=
  ∀ observer w this1 w1,
    AddObserver observer ProxyConfigServiceWin_new w = Done this1 w1 →
    StartWatchingRegistryForChanges this1 w1 = Done this1 w1.

End Service.

Arguments Done {W32 A} a w.
Arguments Crash {W32 A} f w.

(** ** The polling core behind [CheckForChangesNow] *)

Module PollingCore.
Section Core.

(** The configuration is an opaque value with a comparison. *)
Context {Config : Type}.
Variable Config_eqb : Config -> Config -> bool.

(** What the core does to the outside: it hands a fetch to the worker context,
    receives its result back, and notifies observers. *)
Inductive Effect :=
| Fetch_started
| Fetch_completed
| Notified (observer : Observer) (c : Config).

(** Modelled from the spec: the state of [PollingProxyConfigService]
    (net/proxy/polling_proxy_config_service.cc is not among the translated
    sources): the last known configuration, the fetch-in-flight flag, the
    recheck-requested flag, the registered observers; [effects] is the
    history of what the core did. *)
Record State := {
  lastKnownConfig : option Config;
  fetchInFlight : bool;
  recheckRequested : bool;
  observers : list Observer;
  effects : list Effect
}.

Definition init : State :=
  {| lastKnownConfig := None; fetchInFlight := false; recheckRequested := false;
     observers := []; effects := [] |}.

(** Modelled from the spec: [checkForChangesNow()] of the polling core (section
    4.1): with a fetch in flight it marks the recheck flag and returns;
    otherwise it sets fetch-in-flight and hands the fetch to the worker.  The
    recheck flag is down when a cycle starts, so that what is tested after
    the cycle is whether a recheck was requested meanwhile. *)
Definition checkForChangesNow (s : State) : State :=
  if fetchInFlight s then
    {| lastKnownConfig := lastKnownConfig s; fetchInFlight := true;
       recheckRequested := true; observers := observers s;
       effects := effects s |}
  else
    {| lastKnownConfig := lastKnownConfig s; fetchInFlight := true;
       recheckRequested := false; observers := observers s;
       effects := effects s ++ [Fetch_started] |}.

Definition differs (last : option Config) (c : Config) : bool :=
  match last with
  | None => true
  | Some c0 => negb (Config_eqb c0 c)
  end.

(** Modelled from the spec: the second half of the fetch-and-compare cycle of
    the polling core (section 4.1), run when the fetcher's result re-enters
    the serializing context: compare, update and notify in registry order if
    different, clear fetch-in-flight, and re-run the cycle once if a recheck
    was requested meanwhile.  No result can arrive when no fetch is in
    flight. *)
Definition fetchCompleted (c : Config) (s : State) : option State :=
  if fetchInFlight s then
    let changed := differs (lastKnownConfig s) c in
    let s1 :=
      {| lastKnownConfig := if changed then Some c else lastKnownConfig s;
         fetchInFlight := false;
         recheckRequested := false;
         observers := observers s;
         effects := effects s ++ [Fetch_completed] ++
           (if changed then map (fun o => Notified o c) (observers s) else []) |} in
    Some (if recheckRequested s then checkForChangesNow s1 else s1)
  else None.

(** Modelled from the spec: [subscribe] of the polling core, as far as the
    registry goes. *)
Definition subscribe (o : Observer) (s : State) : State :=
  {| lastKnownConfig := lastKnownConfig s; fetchInFlight := fetchInFlight s;
     recheckRequested := recheckRequested s; observers := observers s ++ [o];
     effects := effects s |}.

(** What enters the serializing context. *)
Inductive Event :=
| Trigger
| Completed (c : Config)
| Subscribe (o : Observer).

Definition step (e : Event) (s : State) : option State :=
  match e with
  | Trigger => Some (checkForChangesNow s)
  | Completed c => fetchCompleted c s
  | Subscribe o => Some (subscribe o s)
  end.

Fixpoint run (es : list Event) (s : State) : option State :=
  match es with
  | [] => Some s
  | e :: rest => match step e s with
                 | Some s' => run rest s'
                 | None => None
                 end
  end.

Definition is_started (e : Effect) : bool :=
  match e with Fetch_started => true | _ => false end.

Definition is_completed (e : Effect) : bool :=
  match e with Fetch_completed => true | _ => false end.

(** Cycles begun and cycles finished so far. *)
Definition started (s : State) : nat := length (filter is_started (effects s)).
Definition completed (s : State) : nat := length (filter is_completed (effects s)).

(** [n] trigger events in a row. *)
Definition triggers (n : nat) (s : State) : State := Nat.iter n checkForChangesNow s.

(** Cycles begun and finished differ by the cycle in flight, if any. *)
Definition balanced (s : State) : Prop :=
  started s = (completed s + (if fetchInFlight s then 1 else 0))%nat.

End Core.

Arguments Effect : clear implicits.
Arguments State : clear implicits.
Arguments Event : clear implicits.

End PollingCore.

(** ** A scripted operating system and plain helper code

    An instance of the interfaces in which every fallible call succeeds or
    fails as a script says, used to run the service on concrete inputs. *)

Module Scripted.

Record os_state := {
  script : list bool;
  next_handle : Z;
  last_error : Z
}.

Record regkey := { hkey : Z; event : Z }.

(** The outcome of the next fallible call; an exhausted script means success. *)
Definition pop (o : os_state) : bool * os_state :=
  match script o with
  | [] => (true, o)
  | b :: rest =>
      (b, {| script := rest; next_handle := next_handle o;
             last_error := if b then last_error o else 5 |})
  end.

Definition fresh (o : os_state) : Z * os_state :=
  (next_handle o,
   {| script := script o; next_handle := next_handle o + 1;
      last_error := last_error o |}).

Definition create (rootkey : HKEY) (subkey : wstring) (access : Z) (k : regkey)
    (o : os_state) : bool * regkey * os_state :=
  let '(b, o) := pop o in
  if b then
    let '(h, o) := fresh o in (true, {| hkey := h; event := event k |}, o)
  else (false, {| hkey := 0; event := event k |}, o).

Definition start_watching (k : regkey) (o : os_state) : bool * regkey * os_state :=
  let '(ev, o) := if event k =? 0 then fresh o else (event k, o) in
  let '(b, o) := pop o in
  if b then (true, {| hkey := hkey k; event := ev |}, o)
  else (false, {| hkey := hkey k; event := 0 |}, o).

Definition watch (object : HANDLE) (wt : bool) (o : os_state)
    : bool * bool * os_state :=
  let '(b, o) := pop o in (b, b, o).

Definition ie_settings : WINHTTP_CURRENT_USER_IE_PROXY_CONFIG :=
  {| fAutoDetect := true; lpszAutoConfigUrl := None;
     lpszProxy := Some (L "proxy.example:8080");
     lpszProxyBypass := Some (L "localhost; intranet") |}.

Definition get_ie_config (c : WINHTTP_CURRENT_USER_IE_PROXY_CONFIG) (o : os_state)
    : bool * WINHTTP_CURRENT_USER_IE_PROXY_CONFIG * os_state :=
  let '(b, o) := pop o in
  if b then (true, ie_settings, o) else (false, c, o).

#[export] Instance win32 : Win32 := {|
  OS := os_state;
  RegKey := regkey;
  ObjectWatcher := bool;
  RegKey_new := {| hkey := 0; event := 0 |};
  ObjectWatcher_new := false;
  RegKey_Create := create;
  RegKey_StartWatching := start_watching;
  RegKey_watch_event := event;
  ObjectWatcher_StartWatching := watch;
  RegKey_delete := fun _ o => o;
  ObjectWatcher_delete := fun _ o => o;
  WinHttpGetIEProxyConfigForCurrentUser := get_ie_config;
  GetLastError := last_error
|}.

Definition narrow (s : wstring) : string :=
  string_of_list_ascii (map ascii_of_N s).

Definition is_delim (delims : string) (a : ascii) : bool :=
  existsb (Ascii.eqb a) (list_ascii_of_string delims).

(** Maximal runs of non-delimiters; [cur] is the run being read, reversed. *)
Fixpoint split (delims : string) (cur : list ascii) (input : list ascii)
    : list string :=
  let flush := match cur with
               | [] => []
               | _ => [string_of_list_ascii (rev cur)]
               end in
  match input with
  | [] => flush
  | a :: rest =>
      if is_delim delims a then flush ++ split delims [] rest
      else split delims (a :: cur) rest
  end.

#[export] Instance chromium : Chromium := {|
  dcheck_is_on := false;
  TimeDelta := Z;
  TimeDelta_FromSeconds := fun secs => secs * 1000000;
  WideToASCII := narrow;
  StringTokenizer := fun input delims => split delims [] (list_ascii_of_string input);
  GURL := wstring;
  GURL_of := fun s => s;
  ProxyServers := string;
  ProxyBypassRules := list string;
  AddRuleFromString := fun raw rules => rules ++ [raw]
|}.

Definition parse (s : string) (r : ProxyRules) : ProxyRules :=
  {| servers := s; bypass_rules := bypass_rules r |}.

Definition direct : ProxyConfig :=
  {| auto_detect_ := false;
     proxy_rules_ := {| servers := EmptyString; bypass_rules := [] |};
     pac_url_ := [] |}.

(** A world whose operating system will answer the next calls as [s] says. *)
Definition world (s : list bool) : World :=
  {| os := {| script := s; next_handle := 100; last_error := 0 |}; calls := [] |}.

Definition service : ProxyConfigServiceWin := ProxyConfigServiceWin_new parse direct.

(** An armed entry, and the service watching all three locations. *)
Definition watched (h ev : Z) : KeyEntry :=
  {| key_ := {| hkey := h; event := ev |}; watcher_ := true |}.

Definition armed_service : ProxyConfigServiceWin :=
  set_keys_to_watch [watched 100 101; watched 102 103; watched 104 105] service.

(** IE settings that carry nothing, and settings that carry only a proxy. *)
Definition ie_nothing : WINHTTP_CURRENT_USER_IE_PROXY_CONFIG := ie_config_zero.

Definition ie_proxy_only : WINHTTP_CURRENT_USER_IE_PROXY_CONFIG :=
  {| fAutoDetect := false; lpszAutoConfigUrl := None;
     lpszProxy := Some (L "other.example:3128"); lpszProxyBypass := None |}.

(** A configuration with every part set. *)
Definition full_config : ProxyConfig :=
  {| auto_detect_ := true;
     proxy_rules_ := {| servers := "proxy.example:8080"%string;
                        bypass_rules := ["localhost"%string] |};
     pac_url_ := L "http://wpad/wpad.dat" |}.

(** A subscription, a fire with a failed re-arm, a second subscription, and a
    fire that re-arms. *)
Definition busy_run : list Op :=
  [Op_AddObserver 7; Op_OnObjectSignaled 101; Op_AddObserver 8;
   Op_OnObjectSignaled 105].

Definition busy_world : World := world [true; true; true; false; false; false].

(** The world after the second entry of [armed_service] has been re-armed. *)
Definition rearmed_world : World :=
  {| os := {| script := []; next_handle := 100; last_error := 0 |};
     calls := [Call_RegKey_StartWatching 103 true;
               Call_ObjectWatcher_StartWatching 103 true] |}.

End Scripted.

(** ** Facts about the service *)

Section ServiceFacts.

Context `{W32 : Win32} `{Chr : Chromium}.
Variable ParseFromString : string -> ProxyRules -> ProxyRules.
Variable CreateDirect : ProxyConfig.

(** Unfold the monad and split on the result of every call made. *)
Ltac unfold_monad :=
  unfold bind, ret, call, sys, sys_, crash; simpl.

Ltac split_calls :=
  repeat match goal with
         | |- context [let '(_, _) := ?x in _] =>
             let E := fresh "E" in destruct x as [[? ?] ?] eqn:E; simpl
         | |- context [negb ?b] => is_var b; destruct b; simpl
         end.

(** Arming an entry always returns; it logs one or two calls, none of them a
    registry creation or a change check, the first being the arming of the
    key itself. *)
Lemma KeyEntry_StartWatching_runs (e : KeyEntry) (w : World) :
  ∃ ok e' w' h ok1 cs,
    KeyEntry_StartWatching e w = Done (ok, e') w' ∧
    calls w' = calls w ++ Call_RegKey_StartWatching h ok1 :: cs ∧
    checks cs = 0%nat ∧ creations cs = [].
Proof.
  unfold KeyEntry_StartWatching. unfold_monad. split_calls;
    do 6 eexists; (split; [reflexivity|]); simpl;
    rewrite <- ?app_assoc; simpl; eauto.
Qed.

Lemma KeyEntry_CreateRegKey_runs rootkey subkey (e : KeyEntry) (w : World) :
  ∃ ok e' w',
    KeyEntry_CreateRegKey rootkey subkey e w = Done (ok, e') w' ∧
    calls w' = calls w ++ [Call_RegKey_Create rootkey subkey KEY_NOTIFY ok].
Proof.
  unfold KeyEntry_CreateRegKey. unfold_monad. split_calls; eauto 6.
Qed.

Lemma checks_app (cs1 cs2 : list Call) : checks (cs1 ++ cs2) = (checks cs1 + checks cs2)%nat.
Proof. unfold checks. by rewrite filter_app, length_app. Qed.

Lemma creations_app (cs1 cs2 : list Call) :
  creations (cs1 ++ cs2) = creations cs1 ++ creations cs2.
Proof. unfold creations. apply omap_app. Qed.

Lemma new_calls_app (w w' : World) (cs : list Call) :
  calls w' = calls w ++ cs → new_calls w w' = cs.
Proof. intros H. unfold new_calls. rewrite H. apply drop_app_length. Qed.

(** The scan stops at the first entry whose watch event is the signalled
    handle, or at the end. *)
Lemma find_signalled_first object (keys : list KeyEntry) (i : nat) (E : KeyEntry) :
  keys !! i = Some E →
  watch_event E = object →
  (∀ j e, (j < i)%nat → keys !! j = Some e → watch_event e ≠ object) →
  find_signalled object keys = i.
Proof.
  revert i. induction keys as [|e keys IH]; intros i Hi HE Hfirst; [done|].
  simpl. destruct i as [|i]; simpl in Hi.
  - injection Hi as ->. by rewrite (proj2 (Z.eqb_eq _ _) HE).
  - destruct (Z.eqb_spec (watch_event e) object) as [Heq|_].
    + exfalso. apply (Hfirst 0%nat e); [lia|done|done].
    + f_equal. apply IH; [done|done|].
      intros j e' Hj He'. apply (Hfirst (S j) e'); [lia|done].
Qed.

Lemma find_signalled_none object (keys : list KeyEntry) :
  (∀ e, e ∈ keys → watch_event e ≠ object) →
  find_signalled object keys = length keys.
Proof.
  induction keys as [|e keys IH]; intros Hno; [done|]. simpl.
  destruct (Z.eqb_spec (watch_event e) object) as [Heq|_].
  - exfalso. apply (Hno e); [left|done].
  - f_equal. apply IH. intros e' He'. apply Hno. by right.
Qed.

Lemma find_signalled_some object (keys : list KeyEntry) :
  (∃ e, e ∈ keys ∧ watch_event e = object) →
  ∃ e, keys !! find_signalled object keys = Some e ∧ watch_event e = object.
Proof.
  induction keys as [|e keys IH]; intros (e0 & Hin & He0).
  - by apply elem_of_nil in Hin.
  - simpl. destruct (Z.eqb_spec (watch_event e) object) as [Heq|Hne].
    + by exists e.
    + apply elem_of_cons in Hin as [->|Hin]; [done|]. apply IH. eauto.
Qed.

Lemma delete_insert_same {A} (l : list A) (i : nat) (x : A) :
  delete i (<[i:=x]> l) = delete i l.
Proof.
  revert i. induction l as [|a l IH]; intros [|i]; simpl; try done.
  f_equal. apply IH.
Qed.

(** One attempt to watch a location: it always returns, opens the registry
    key exactly once, asks for no change check, and either leaves the object
    as it was or appends one entry. *)
Lemma AddKeyToWatchList_runs rootkey subkey (this : ProxyConfigServiceWin) (w : World) :
  ∃ (ok created : bool) entry w' cs,
    AddKeyToWatchList rootkey subkey this w =
      Done (ok, if ok then set_keys_to_watch (keys_to_watch_ this ++ [entry]) this
                else this) w' ∧
    calls w' = calls w ++ cs ∧
    creations cs = [(rootkey, subkey, created)] ∧
    checks cs = 0%nat ∧
    (created = false → ok = false).
Proof.
  unfold AddKeyToWatchList, KeyEntry_CreateRegKey, KeyEntry_StartWatching,
    KeyEntry_delete.
  unfold_monad. split_calls;
    first
      [ solve [ exists true; do 4 eexists; (split; [reflexivity|]); simpl;
                rewrite <- ?app_assoc; simpl; repeat split; done ]
      | solve [ exists false; eexists; exists KeyEntry_new; do 2 eexists;
                (split; [reflexivity|]); simpl;
                rewrite <- ?app_assoc; simpl; repeat split; done ] ].
Qed.

(** C8. [AddKeyToWatchList] is atomic with respect to the watch set, for every
    root key and subkey: it always returns; if creating the registry key or
    arming the watch fails it returns false and leaves the object, hence
    [keys_to_watch_], unchanged; if both succeed it returns true and
    [keys_to_watch_] is the old list with exactly the armed entry appended at
    its end. *)
Theorem AddKeyToWatchList_atomic
    rootkey subkey (this : ProxyConfigServiceWin) (w : World) :
  ∃ (created : bool) e1 w1,
    KeyEntry_CreateRegKey rootkey subkey KeyEntry_new w = Done (created, e1) w1 ∧
  ∃ (ok : bool) this' w',
    AddKeyToWatchList rootkey subkey this w = Done (ok, this') w' ∧
    if created then
      ∃ (armed : bool) entry w2,
        KeyEntry_StartWatching e1 w1 = Done (armed, entry) w2 ∧
        ok = armed ∧
        this' = (if armed
                 then set_keys_to_watch (keys_to_watch_ this ++ [entry]) this
                 else this) ∧
        keys_to_watch_ this' = (if armed then keys_to_watch_ this ++ [entry]
                                else keys_to_watch_ this)
    else
      ok = false ∧ this' = this.
Proof.
  destruct (KeyEntry_CreateRegKey_runs rootkey subkey KeyEntry_new w)
    as (created & e1 & w1 & Hc & _).
  exists created, e1, w1. split; [done|].
  unfold AddKeyToWatchList, bind. rewrite Hc.
  destruct created; simpl.
  - destruct (KeyEntry_StartWatching_runs e1 w1)
      as (armed & entry & w2 & _ & _ & _ & Ha & _).
    rewrite Ha. destruct armed; simpl.
    + unfold ret. do 3 eexists. split; [reflexivity|]. by exists true, entry, w2.
    + unfold ret. do 3 eexists. split; [reflexivity|]. by exists false, entry, w2.
  - unfold ret. eauto 6.
Qed.

(** When the scan stops on an entry, the handler re-arms it, keeps or erases
    it, and asks for one change check. *)
Lemma OnObjectSignaled_found object (this : ProxyConfigServiceWin) (w : World) E :
  keys_to_watch_ this !! find_signalled object (keys_to_watch_ this) = Some E →
  ∃ (rearmed : bool) E' w1 h ok1 cs,
    KeyEntry_StartWatching E w = Done (rearmed, E') w1 ∧
    calls w1 = calls w ++ Call_RegKey_StartWatching h ok1 :: cs ∧
    checks cs = 0%nat ∧ creations cs = [] ∧
    OnObjectSignaled object this w =
      Done (set_keys_to_watch
              (if rearmed
               then <[find_signalled object (keys_to_watch_ this) := E']>
                      (keys_to_watch_ this)
               else delete (find_signalled object (keys_to_watch_ this))
                      (keys_to_watch_ this))
              this)
           {| os := os w1; calls := calls w1 ++ [Call_CheckForChangesNow] |}.
Proof.
  intros Hit.
  destruct (KeyEntry_StartWatching_runs E w)
    as (rearmed & E' & w1 & h & ok1 & cs & Hrun & Hcalls & Hchecks & Hcreations).
  exists rearmed, E', w1, h, ok1, cs. repeat (split; [done|]).
  unfold OnObjectSignaled, DCHECK.
  assert (find_signalled object (keys_to_watch_ this) ≠ length (keys_to_watch_ this))
    as Hne by (apply lookup_lt_Some in Hit; lia).
  rewrite (bool_decide_eq_false_2 _ Hne), andb_false_r.
  unfold bind at 1. unfold ret at 1. rewrite Hit.
  unfold bind at 1. rewrite Hrun.
  destruct rearmed; simpl; unfold bind, call, ret; simpl; [done|].
  by rewrite delete_insert_same.
Qed.

(** C10. The handler relies on the signalled handle being the watch event of
    an entry of [keys_to_watch_], and checks it only by a debug assertion.
    If no entry matches, the scan ends at [end()]: a debug build stops at the
    assertion, a release build goes on to dereference the end iterator, and
    in neither case is anything re-armed or checked.  If some entry matches,
    the iterator designates an entry with that watch event and the handler
    returns. *)
Theorem OnObjectSignaled_precondition
    object (this : ProxyConfigServiceWin) (w : World) :
  ((∀ e, e ∈ keys_to_watch_ this → watch_event e ≠ object) →
     find_signalled object (keys_to_watch_ this) = length (keys_to_watch_ this) ∧
     OnObjectSignaled object this w =
       Crash (if dcheck_is_on then DCHECK_failed else end_iterator_dereferenced) w) ∧
  ((∃ e, e ∈ keys_to_watch_ this ∧ watch_event e = object) →
     (∃ e, keys_to_watch_ this !! find_signalled object (keys_to_watch_ this) = Some e ∧
           watch_event e = object) ∧
     ∃ this' w', OnObjectSignaled object this w = Done this' w').
Proof.
  split.
  - intros Hnone. pose proof (find_signalled_none object _ Hnone) as Hend.
    split; [done|].
    unfold OnObjectSignaled, DCHECK. rewrite Hend.
    rewrite bool_decide_eq_true_2 by done. simpl. rewrite andb_true_r.
    destruct dcheck_is_on; unfold bind, crash, ret; simpl; [done|].
    by rewrite (lookup_ge_None_2 (keys_to_watch_ this) _ (le_n _)).
  - intros Hsome. destruct (find_signalled_some object _ Hsome) as (e & Hit & He).
    split; [eauto|].
    destruct (OnObjectSignaled_found object this w e Hit)
      as (? & ? & ? & ? & ? & ? & _ & _ & _ & _ & ->).
    eauto.
Qed.

Lemma FreeIEConfig_runs ie (w : World) : ∃ w', FreeIEConfig ie w = Done tt w'.
Proof.
  unfold FreeIEConfig.
  destruct (lpszAutoConfigUrl ie), (lpszProxy ie), (lpszProxyBypass ie);
    unfold_monad; eauto.
Qed.

(** C2. The configuration fetch always produces a configuration value and
    never stops with an error; when [WinHttpGetIEProxyConfigForCurrentUser]
    reports failure the value produced is [ProxyConfig::CreateDirect()],
    whatever configuration was passed in, and the only other effect is the
    logged error. *)
Theorem GetCurrentProxyConfig_total (config : ProxyConfig) (w : World) :
  (∃ config' w',
     GetCurrentProxyConfig ParseFromString CreateDirect config w = Done config' w') ∧
  (∀ ie o,
     WinHttpGetIEProxyConfigForCurrentUser ie_config_zero (os w) = (false, ie, o) →
     GetCurrentProxyConfig ParseFromString CreateDirect config w =
       Done CreateDirect
            {| os := o;
               calls := calls w ++
                 [Call_WinHttpGetIEProxyConfigForCurrentUser false;
                  Call_LOG_ERROR (GetLastError o)] |}).
Proof.
  split.
  - unfold GetCurrentProxyConfig. unfold bind at 1. unfold sys at 1.
    destruct (WinHttpGetIEProxyConfigForCurrentUser ie_config_zero (os w))
      as [[ok ie] o].
    destruct ok; unfold_monad; [|eauto].
    match goal with
    | |- context [FreeIEConfig ie ?w0] =>
        destruct (FreeIEConfig_runs ie w0) as (w' & ->)
    end.
    eauto.
  - intros ie o Hfail. unfold GetCurrentProxyConfig. unfold_monad.
    rewrite Hfail. simpl. by rewrite <- app_assoc.
Qed.

(** C9. [SetFromIEConfig] writes a part of the configuration only when the
    IE settings carry a value for it: with [fAutoDetect] false the
    auto-detect flag is as passed in (so it is never set to false); with a
    null [lpszProxy] the proxy servers are as passed in, and so are the whole
    proxy rules when [lpszProxyBypass] is null as well; with a null
    [lpszProxyBypass] no bypass rule is added, so the bypass rules are as
    [ParseFromString] left them, and as passed in when [lpszProxy] is null
    too or when [ParseFromString] leaves bypass rules alone; with a null
    [lpszAutoConfigUrl] the PAC URL is as passed in. *)
Theorem SetFromIEConfig_only_adds
    (config : ProxyConfig) (ie_config : WINHTTP_CURRENT_USER_IE_PROXY_CONFIG) :
  let config' := SetFromIEConfig ParseFromString config ie_config in
  (fAutoDetect ie_config = false → auto_detect_ config' = auto_detect_ config) ∧
  (auto_detect_ config = true → auto_detect_ config' = true) ∧
  (lpszProxy ie_config = None →
     servers (proxy_rules_ config') = servers (proxy_rules_ config)) ∧
  (lpszProxy ie_config = None → lpszProxyBypass ie_config = None →
     proxy_rules_ config' = proxy_rules_ config) ∧
  (lpszProxyBypass ie_config = None →
     bypass_rules (proxy_rules_ config') =
     bypass_rules (match lpszProxy ie_config with
                   | Some p => ParseFromString (WideToASCII p) (proxy_rules_ config)
                   | None => proxy_rules_ config
                   end)) ∧
  (lpszProxyBypass ie_config = None →
     (lpszProxy ie_config = None ∨
      ∀ s r, bypass_rules (ParseFromString s r) = bypass_rules r) →
     bypass_rules (proxy_rules_ config') = bypass_rules (proxy_rules_ config)) ∧
  (lpszAutoConfigUrl ie_config = None → pac_url_ config' = pac_url_ config).
Proof.
  unfold SetFromIEConfig.
  destruct ie_config as [auto url proxy bypass]; simpl.
  repeat split.
  - intros ->. by destruct proxy, bypass, url.
  - intros Hauto. by destruct auto, proxy, bypass, url.
  - intros ->. by destruct auto, bypass, url.
  - intros -> ->. by destruct auto, url.
  - intros ->. by destruct auto, proxy, url.
  - intros -> [-> | Hframe]; [by destruct auto, url|].
    destruct auto, proxy, url; simpl; by rewrite ?Hframe.
  - intros ->. by destruct auto, proxy, bypass.
Qed.

(** Start-up on a non-empty watch set returns at once. *)
Lemma StartWatchingRegistryForChanges_initialized
    (this : ProxyConfigServiceWin) (w : World) :
  keys_to_watch_ this ≠ [] →
  StartWatchingRegistryForChanges this w = Done this w.
Proof.
  intros Hne. unfold StartWatchingRegistryForChanges.
  rewrite bool_decide_eq_false_2; [done|].
  by destruct (keys_to_watch_ this).
Qed.

(** Start-up on an empty watch set is the three attempts in a row. *)
Lemma StartWatchingRegistryForChanges_empty
    (this : ProxyConfigServiceWin) (w : World) :
  keys_to_watch_ this = [] →
  StartWatchingRegistryForChanges this w =
    bind (AddKeyToWatchList HKEY_CURRENT_USER internet_settings this) (fun r1 =>
    bind (AddKeyToWatchList HKEY_LOCAL_MACHINE internet_settings r1.2) (fun r2 =>
    bind (AddKeyToWatchList HKEY_LOCAL_MACHINE policies_internet_settings r2.2)
      (fun r3 => ret r3.2))) w.
Proof.
  intros Hempty. unfold StartWatchingRegistryForChanges.
  rewrite Hempty. simpl. unfold bind.
  destruct (AddKeyToWatchList HKEY_CURRENT_USER _ _ _) as [[ok1 this1] w1|]; [|done].
  simpl.
  destruct (AddKeyToWatchList HKEY_LOCAL_MACHINE internet_settings _ _)
    as [[ok2 this2] w2|]; [|done].
  simpl.
  by destruct (AddKeyToWatchList HKEY_LOCAL_MACHINE policies_internet_settings _ _)
    as [[ok3 this3] w3|].
Qed.

Lemma AddKeyToWatchList_contribution
    rootkey subkey (this : ProxyConfigServiceWin) (w : World) :
  ∃ (ok created : bool) entry this' w' cs,
    AddKeyToWatchList rootkey subkey this w = Done (ok, this') w' ∧
    this' = set_keys_to_watch (keys_to_watch_ this ++ contribution ok entry) this ∧
    calls w' = calls w ++ cs ∧
    creations cs = [(rootkey, subkey, created)] ∧
    checks cs = 0%nat ∧
    (created = false → ok = false).
Proof.
  destruct (AddKeyToWatchList_runs rootkey subkey this w)
    as (ok & created & entry & w' & cs & Hrun & Hrest).
  exists ok, created, entry. do 3 eexists. split; [exact Hrun|].
  split; [|exact Hrest].
  destruct ok; simpl; [done|]. rewrite app_nil_r. by destruct this.
Qed.

(** The run of start-up on an empty watch set, attempt by attempt. *)
Lemma StartWatchingRegistryForChanges_attempts
    (this : ProxyConfigServiceWin) (w : World) :
  keys_to_watch_ this = [] →
  ∃ (ok1 ok2 ok3 created1 created2 created3 : bool) e1 e2 e3
    this1 this2 this3 w1 w2 w3,
    AddKeyToWatchList HKEY_CURRENT_USER internet_settings this w
      = Done (ok1, this1) w1 ∧
    AddKeyToWatchList HKEY_LOCAL_MACHINE internet_settings this1 w1
      = Done (ok2, this2) w2 ∧
    AddKeyToWatchList HKEY_LOCAL_MACHINE policies_internet_settings this2 w2
      = Done (ok3, this3) w3 ∧
    StartWatchingRegistryForChanges this w = Done this3 w3 ∧
    this1 = set_keys_to_watch (contribution ok1 e1) this ∧
    this2 = set_keys_to_watch (contribution ok1 e1 ++ contribution ok2 e2) this ∧
    this3 = set_keys_to_watch
              (contribution ok1 e1 ++ contribution ok2 e2 ++ contribution ok3 e3)
              this ∧
    (created1 = false → ok1 = false) ∧
    (created2 = false → ok2 = false) ∧
    (created3 = false → ok3 = false) ∧
    (∃ cs, calls w3 = calls w ++ cs ∧ checks cs = 0%nat ∧
           creations cs =
             [(HKEY_CURRENT_USER, internet_settings, created1);
              (HKEY_LOCAL_MACHINE, internet_settings, created2);
              (HKEY_LOCAL_MACHINE, policies_internet_settings, created3)]).
Proof.
  intros Hempty.
  destruct (AddKeyToWatchList_contribution
              HKEY_CURRENT_USER internet_settings this w)
    as (ok1 & c1 & e1 & this1 & w1 & cs1 & H1 & Ht1 & Hw1 & Hc1 & Hk1 & Hf1).
  destruct (AddKeyToWatchList_contribution
              HKEY_LOCAL_MACHINE internet_settings this1 w1)
    as (ok2 & c2 & e2 & this2 & w2 & cs2 & H2 & Ht2 & Hw2 & Hc2 & Hk2 & Hf2).
  destruct (AddKeyToWatchList_contribution
              HKEY_LOCAL_MACHINE policies_internet_settings this2 w2)
    as (ok3 & c3 & e3 & this3 & w3 & cs3 & H3 & Ht3 & Hw3 & Hc3 & Hk3 & Hf3).
  exists ok1, ok2, ok3, c1, c2, c3, e1, e2, e3, this1, this2, this3, w1, w2, w3.
  split; [exact H1|]. split; [exact H2|]. split; [exact H3|].
  split.
  { rewrite (StartWatchingRegistryForChanges_empty this w Hempty).
    unfold bind. rewrite H1. cbn [snd]. rewrite H2. cbn [snd]. by rewrite H3. }
  assert (this1 = set_keys_to_watch (contribution ok1 e1) this) as E1.
  { by rewrite Ht1, Hempty. }
  assert (this2 = set_keys_to_watch (contribution ok1 e1 ++ contribution ok2 e2) this)
    as E2.
  { by rewrite Ht2, E1. }
  split; [exact E1|]. split; [exact E2|].
  split. { rewrite Ht3, E2. simpl. by rewrite <- app_assoc. }
  repeat (split; [done|]).
  exists (cs1 ++ cs2 ++ cs3). split; [|split].
  - rewrite Hw3, Hw2, Hw1. by rewrite <- !app_assoc.
  - rewrite !checks_app. lia.
  - rewrite !creations_app. by rewrite Hc1, Hc2, Hc3.
Qed.

Lemma set_keys_to_watch_same (this : ProxyConfigServiceWin) :
  set_keys_to_watch (keys_to_watch_ this) this = this.
Proof. by destruct this. Qed.

Lemma length_contribution ok (e : KeyEntry) : (length (contribution ok e) ≤ 1)%nat.
Proof. destruct ok; simpl; lia. Qed.

Lemma OnObjectSignaled_end object (this : ProxyConfigServiceWin) (w : World) :
  keys_to_watch_ this !! find_signalled object (keys_to_watch_ this) = None →
  ∃ f, OnObjectSignaled object this w = Crash f w.
Proof.
  intros Hit. unfold OnObjectSignaled, DCHECK. rewrite Hit.
  destruct (dcheck_is_on && _); unfold_monad; eauto.
Qed.

(** One operation: only [keys_to_watch_] can change.  A subscription leaves a
    non-empty watch set alone and fills an empty one with at most three
    entries; a watch fire re-arms one entry in place or erases it. *)
Lemma run_op_keys op (this this' : ProxyConfigServiceWin) (w w' : World) :
  run_op op this w = Done this' w' →
  ∃ keys',
    this' = set_keys_to_watch keys' this ∧
    match op with
    | Op_AddObserver _ =>
        if bool_decide (keys_to_watch_ this = []) then (length keys' ≤ 3)%nat
        else keys' = keys_to_watch_ this
    | Op_OnObjectSignaled object =>
        ∃ i E, keys_to_watch_ this !! i = Some E ∧
          (keys' = delete i (keys_to_watch_ this) ∨
           ∃ E', keys' = <[i := E']> (keys_to_watch_ this))
    end.
Proof.
  destruct op as [observer|object]; simpl; intros Hrun.
  - unfold AddObserver, bind in Hrun. case_bool_decide as Hkeys.
    + destruct (StartWatchingRegistryForChanges_attempts this w Hkeys)
        as (ok1 & ok2 & ok3 & ? & ? & ? & e1 & e2 & e3 & ? & ? & this3 & ? & ? & w3
            & _ & _ & _ & Hstart & _ & _ & -> & _).
      rewrite Hstart in Hrun. unfold call, ret in Hrun. simpl in Hrun.
      injection Hrun as <- _. eexists. split; [reflexivity|].
      rewrite !length_app.
      pose proof (length_contribution ok1 e1).
      pose proof (length_contribution ok2 e2).
      pose proof (length_contribution ok3 e3). lia.
    + rewrite (StartWatchingRegistryForChanges_initialized this w Hkeys) in Hrun.
      unfold call, ret in Hrun. simpl in Hrun. injection Hrun as <- _.
      exists (keys_to_watch_ this). by rewrite set_keys_to_watch_same.
  - destruct (keys_to_watch_ this !! find_signalled object (keys_to_watch_ this))
      as [E|] eqn:Hit.
    + destruct (OnObjectSignaled_found object this w E Hit)
        as (rearmed & E' & ? & ? & ? & ? & _ & _ & _ & _ & Hsig).
      rewrite Hsig in Hrun. injection Hrun as <- _.
      eexists. split; [reflexivity|].
      exists (find_signalled object (keys_to_watch_ this)), E.
      split; [exact Hit|]. destruct rearmed; eauto.
    + destruct (OnObjectSignaled_end object this w Hit) as (f & Hcrash).
      congruence.
Qed.


Lemma run_ops_frame ops (this this' : ProxyConfigServiceWin) (w w' : World) :
  run_ops ops this w = Done this' w' →
  poll_interval this' = poll_interval this ∧
  get_config_func this' = get_config_func this.
Proof.
  revert this w. induction ops as [|op ops IH]; intros this w; simpl.
  - unfold ret. by intros [= <- _].
  - unfold bind. destruct (run_op op this w) as [this1 w1|] eqn:Hop; [|done].
    intros Hrest. destruct (run_op_keys _ _ _ _ _ Hop) as (keys' & -> & _).
    by destruct (IH _ _ Hrest) as [-> ->].
Qed.

(** C7. The poll interval is ten seconds: the constant is 10, the constructor
    hands [TimeDelta::FromSeconds(10)] to the base class, and no subscription
    and no watch fire ever changes it. *)
Theorem poll_interval_ten_seconds :
  kPollIntervalSec = 10 ∧
  poll_interval (ProxyConfigServiceWin_new ParseFromString CreateDirect)
    = TimeDelta_FromSeconds 10 ∧
  ∀ ops w this' w',
    run_ops ops (ProxyConfigServiceWin_new ParseFromString CreateDirect) w
      = Done this' w' →
    poll_interval this' = TimeDelta_FromSeconds 10.
Proof.
  split; [done|]. split; [done|].
  intros ops w this' w' Hrun.
  by destruct (run_ops_frame _ _ _ _ _ Hrun) as [-> _].
Qed.


End ServiceFacts.

(** ** Facts about the polling core *)

Section PollingCoreFacts.

Import PollingCore.

Context {Config : Type}.
Variable Config_eqb : Config -> Config -> bool.

Local Open Scope nat_scope.

Lemma notifications_neutral (c : Config) (os : list Observer) :
  filter is_started (map (λ o, Notified o c) os) = [] ∧
  filter is_completed (map (λ o, Notified o c) os) = [].
Proof.
  induction os as [|o os [IH1 IH2]]; [done|]. simpl.
  rewrite !filter_cons_False by (simpl; tauto). done.
Qed.

(** Count the cycles in an explicit history, then do the arithmetic with the
    counts of the unknown part abstracted. *)
Ltac count :=
  rewrite ?filter_app, ?length_app;
  repeat first [ rewrite filter_cons_True by exact I
               | rewrite filter_cons_False by (simpl; tauto) ];
  rewrite ?(proj1 (notifications_neutral _ _)),
          ?(proj2 (notifications_neutral _ _));
  simpl;
  repeat match goal with
         | |- context [length (filter ?P (effects ?s))] =>
             generalize (length (filter P (effects s))); intro
         end;
  intros; lia.

(** A trigger while a fetch is in flight starts nothing; it only leaves the
    recheck flag set. *)
Lemma checkForChangesNow_in_flight (s : State Config) :
  fetchInFlight s = true →
  checkForChangesNow s =
    {| lastKnownConfig := lastKnownConfig s; fetchInFlight := true;
       recheckRequested := true; observers := observers s;
       effects := effects s |}.
Proof. intros H. unfold checkForChangesNow. by rewrite H. Qed.

Lemma triggers_in_flight (n : nat) (s : State Config) :
  fetchInFlight s = true →
  1 ≤ n →
  triggers n s =
    {| lastKnownConfig := lastKnownConfig s; fetchInFlight := true;
       recheckRequested := true; observers := observers s;
       effects := effects s |}.
Proof.
  intros Hflight Hn. destruct n as [|n]; [lia|]. clear Hn.
  induction n as [|n IH].
  - simpl. by apply checkForChangesNow_in_flight.
  - unfold triggers in *. rewrite Nat.iter_succ, IH.
    by rewrite checkForChangesNow_in_flight.
Qed.

Lemma checkForChangesNow_balanced (s : State Config) :
  balanced s → balanced (checkForChangesNow s).
Proof.
  unfold balanced, checkForChangesNow, started, completed.
  destruct (fetchInFlight s); simpl; [done|]. count.
Qed.

Lemma fetchCompleted_balanced (c : Config) (s s' : State Config) :
  balanced s → fetchCompleted Config_eqb c s = Some s' → balanced s'.
Proof.
  unfold fetchCompleted. intros Hs.
  destruct (fetchInFlight s) eqn:Hflight; [|done]. intros [= <-].
  assert (balanced
    {| lastKnownConfig :=
         if differs Config_eqb (lastKnownConfig s) c
         then Some c else lastKnownConfig s;
       fetchInFlight := false; recheckRequested := false;
       observers := observers s;
       effects := effects s ++ [Fetch_completed] ++
         (if differs Config_eqb (lastKnownConfig s) c
          then map (λ o, Notified o c) (observers s) else []) |})
    as Hs1.
  { revert Hs. unfold balanced, started, completed.
    rewrite Hflight. simpl. destruct (differs _ _ _); count. }
  destruct (recheckRequested s); [|done].
  by apply checkForChangesNow_balanced.
Qed.

Lemma run_balanced (es : list (Event Config)) (s s' : State Config) :
  balanced s → run Config_eqb es s = Some s' → balanced s'.
Proof.
  revert s. induction es as [|e es IH]; intros s Hs; simpl.
  - by intros [= <-].
  - destruct (step Config_eqb e s) as [s1|] eqn:Hstep; [|done].
    apply IH. destruct e as [|c|o]; simpl in Hstep.
    + injection Hstep as <-. by apply checkForChangesNow_balanced.
    + by eapply fetchCompleted_balanced.
    + by injection Hstep as <-.
Qed.

(** C4. At most one fetch-and-compare cycle is in flight at any time: in every
    state the core can reach, the cycles begun exceed the cycles finished by
    one when a fetch is in flight and by none otherwise.  And triggers
    coalesce: when [n >= 1] trigger events arrive while a cycle is in flight,
    none of them starts a cycle; the completion of the cycle in flight starts
    exactly one further cycle, and the completion of that one, no trigger
    having arrived meanwhile, starts none. *)
Theorem one_cycle_at_a_time_and_coalescing :
  (∀ es (s : State Config),
     run Config_eqb es init = Some s →
     started s = completed s + (if fetchInFlight s then 1 else 0) ∧
     started s - completed s ≤ 1) ∧
  (∀ (s : State Config) (n : nat) (c : Config),
     fetchInFlight s = true →
     1 ≤ n →
     started (triggers n s) = started s ∧
     completed (triggers n s) = completed s ∧
     fetchInFlight (triggers n s) = true ∧
     ∃ s2,
       fetchCompleted Config_eqb c (triggers n s) = Some s2 ∧
       started s2 = started s + 1 ∧
       completed s2 = completed s + 1 ∧
       fetchInFlight s2 = true ∧
       recheckRequested s2 = false ∧
       ∀ c', ∃ s3,
         fetchCompleted Config_eqb c' s2 = Some s3 ∧
         started s3 = started s + 1 ∧
         completed s3 = completed s + 2 ∧
         fetchInFlight s3 = false).
Proof.
  split.
  - intros es s Hrun.
    assert (balanced s) as Hs by (by eapply run_balanced; [|exact Hrun]).
    split; [exact Hs|]. unfold balanced in Hs.
    destruct (fetchInFlight s); count.
  - intros s n c Hflight Hn. rewrite (triggers_in_flight n s Hflight Hn).
    repeat (split; [done|]).
    unfold fetchCompleted, checkForChangesNow. simpl.
    eexists. split; [reflexivity|].
    unfold started, completed. simpl.
    repeat split.
    + destruct (differs _ _ _); count.
    + destruct (differs _ _ _); count.
    + intros c'. eexists. split; [reflexivity|]. simpl.
      repeat split;
        destruct (differs _ (lastKnownConfig s) c);
        destruct (differs _ _ c'); count.
Qed.

End PollingCoreFacts.

(** ** The theorems at concrete runs of the scripted system *)

Section Runs.

Import Scripted.

(** A run that comes to its end on evaluation did not stop short. *)
Ltac not_crashed H :=
  exfalso;
  match type of H with
  | ?r = Crash _ _ =>
      assert (succeeded r = true) as Hs by (vm_compute; reflexivity);
      rewrite H in Hs; discriminate Hs
  end.

(** A handle no entry has, and a handle the third entry has. *)
Lemma OnObjectSignaled_precondition_run :
  (find_signalled 999 (keys_to_watch_ armed_service)
     = length (keys_to_watch_ armed_service) ∧
   OnObjectSignaled 999 armed_service (world []) =
     Crash (if dcheck_is_on then DCHECK_failed else end_iterator_dereferenced)
           (world [])) ∧
  ((∃ e, keys_to_watch_ armed_service
           !! find_signalled 105 (keys_to_watch_ armed_service) = Some e ∧
         watch_event e = 105) ∧
   ∃ this' w', OnObjectSignaled 105 armed_service (world []) = Done this' w').
Proof.
  split.
  - apply (proj1 (OnObjectSignaled_precondition 999 armed_service (world []))).
    intros e He. vm_compute in He.
    apply elem_of_cons in He as [->|He]; [vm_compute; discriminate|].
    apply elem_of_cons in He as [->|He]; [vm_compute; discriminate|].
    apply elem_of_cons in He as [->|He]; [vm_compute; discriminate|].
    by apply elem_of_nil in He.
  - apply (proj2 (OnObjectSignaled_precondition 105 armed_service (world []))).
    exists (watched 104 105). split; [|reflexivity].
    do 2 apply list_elem_of_further. apply list_elem_of_here.
Defined.

(** The platform call fails: the configuration passed in is replaced by the
    direct one. *)
Lemma GetCurrentProxyConfig_total_run :
  GetCurrentProxyConfig parse direct full_config (world [false]) =
    Done direct
         {| os := {| script := []; next_handle := 100; last_error := 5 |};
            calls := [Call_WinHttpGetIEProxyConfigForCurrentUser false;
                      Call_LOG_ERROR 5] |}.
Proof.
  apply (proj2 (GetCurrentProxyConfig_total parse direct full_config (world [false]))
           ie_config_zero).
  reflexivity.
Defined.

(** Settings that carry nothing leave every part of a full configuration;
    settings that carry only a proxy leave its bypass rules. *)
Lemma SetFromIEConfig_only_adds_run :
  (auto_detect_ (SetFromIEConfig parse full_config ie_nothing)
     = auto_detect_ full_config ∧
   auto_detect_ (SetFromIEConfig parse full_config ie_nothing) = true ∧
   servers (proxy_rules_ (SetFromIEConfig parse full_config ie_nothing))
     = servers (proxy_rules_ full_config) ∧
   proxy_rules_ (SetFromIEConfig parse full_config ie_nothing)
     = proxy_rules_ full_config ∧
   bypass_rules (proxy_rules_ (SetFromIEConfig parse full_config ie_nothing))
     = bypass_rules (proxy_rules_ full_config) ∧
   pac_url_ (SetFromIEConfig parse full_config ie_nothing) = pac_url_ full_config) ∧
  bypass_rules (proxy_rules_ (SetFromIEConfig parse full_config ie_proxy_only))
    = bypass_rules (proxy_rules_ full_config).
Proof.
  split.
  - destruct (SetFromIEConfig_only_adds parse full_config ie_nothing)
      as (Hauto & Hkeep & Hservers & Hrules & _ & Hbypass & Hpac).
    split; [exact (Hauto eq_refl)|].
    split; [exact (Hkeep eq_refl)|].
    split; [exact (Hservers eq_refl)|].
    split; [exact (Hrules eq_refl eq_refl)|].
    split; [exact (Hbypass eq_refl (or_introl eq_refl))|].
    exact (Hpac eq_refl).
  - destruct (SetFromIEConfig_only_adds parse full_config ie_proxy_only)
      as (_ & _ & _ & _ & _ & Hbypass & _).
    apply (Hbypass eq_refl). right. intros s r. reflexivity.
Defined.

(** A subscription, a fire with a failed re-arm, and another subscription. *)
Lemma poll_interval_ten_seconds_run :
  match run_ops [Op_AddObserver 7; Op_OnObjectSignaled 101; Op_AddObserver 8] service
          (world [true; true; true; false; false; false]) with
  | Done this' _ => poll_interval this' = TimeDelta_FromSeconds 10
  | Crash _ _ => False
  end.
Proof.
  destruct (run_ops _ service _) as [this' w'|f w'] eqn:Hrun.
  - exact (proj2 (proj2 (poll_interval_ten_seconds (W32 := win32) parse direct))
             _ _ this' w' Hrun).
  - not_crashed Hrun.
Defined.



(** A trigger, two more while its fetch is in flight, and the completion; then
    three triggers while the first fetch is in flight. *)
Lemma one_cycle_at_a_time_and_coalescing_run :
  match PollingCore.run Z.eqb
          [PollingCore.Trigger; PollingCore.Trigger; PollingCore.Trigger;
           PollingCore.Completed 42]
          PollingCore.init with
  | Some s =>
      PollingCore.started s =
        (PollingCore.completed s +
         (if PollingCore.fetchInFlight s then 1 else 0))%nat ∧
      (PollingCore.started s - PollingCore.completed s ≤ 1)%nat
  | None => False
  end ∧
  let s := PollingCore.checkForChangesNow (Config := Z) PollingCore.init in
  PollingCore.started (PollingCore.triggers 3 s) = PollingCore.started s ∧
  PollingCore.completed (PollingCore.triggers 3 s) = PollingCore.completed s ∧
  PollingCore.fetchInFlight (PollingCore.triggers 3 s) = true ∧
  ∃ s2,
    PollingCore.fetchCompleted Z.eqb 42 (PollingCore.triggers 3 s) = Some s2 ∧
    PollingCore.started s2 = (PollingCore.started s + 1)%nat ∧
    PollingCore.completed s2 = (PollingCore.completed s + 1)%nat ∧
    PollingCore.fetchInFlight s2 = true ∧
    PollingCore.recheckRequested s2 = false ∧
    ∀ c', ∃ s3,
      PollingCore.fetchCompleted Z.eqb c' s2 = Some s3 ∧
      PollingCore.started s3 = (PollingCore.started s + 1)%nat ∧
      PollingCore.completed s3 = (PollingCore.completed s + 2)%nat ∧
      PollingCore.fetchInFlight s3 = false.
Proof.
  split.
  - destruct (PollingCore.run Z.eqb _ PollingCore.init) as [s|] eqn:Hrun.
    + exact (proj1 (one_cycle_at_a_time_and_coalescing Z.eqb) _ s Hrun).
    + vm_compute in Hrun. discriminate.
  - apply (proj2 (one_cycle_at_a_time_and_coalescing Z.eqb)
             (PollingCore.checkForChangesNow PollingCore.init) 3%nat 42).
    + reflexivity.
    + repeat constructor.
Defined.

End Runs.

(** ** Further facts: what is released, what is logged, what stays bounded *)

Section ServiceLog.

Context `{W32 : Win32} `{Chr : Chromium}.
Variable ParseFromString : string -> ProxyRules -> ProxyRules.
Variable CreateDirect : ProxyConfig.

Ltac unfold_monad :=
  unfold bind, ret, call, sys, sys_, crash; simpl.

Ltac split_calls :=
  repeat match goal with
         | |- context [let '(_, _) := ?x in _] =>
             let E := fresh "E" in destruct x as [[? ?] ?] eqn:E; simpl
         | |- context [negb ?b] => is_var b; destruct b; simpl
         end.

Lemma deletes_app (cs1 cs2 : list Call) :
  deletes (cs1 ++ cs2) = (deletes cs1 + deletes cs2)%nat.
Proof. unfold deletes. by rewrite filter_app, length_app. Qed.

Lemma observers_added_app (cs1 cs2 : list Call) :
  observers_added (cs1 ++ cs2) = observers_added cs1 ++ observers_added cs2.
Proof. unfold observers_added. apply omap_app. Qed.

Lemma watcher_armed_on_app object (cs1 cs2 : list Call) :
  watcher_armed_on object cs1 ∨ watcher_armed_on object cs2 →
  watcher_armed_on object (cs1 ++ cs2).
Proof. unfold watcher_armed_on. rewrite elem_of_app. tauto. Qed.

(** What a run of [KeyEntry::StartWatching] logs, by outcome. *)
Lemma KeyEntry_StartWatching_log (e e' : KeyEntry) (w w' : World) (ok : bool) :
  KeyEntry_StartWatching e w = Done (ok, e') w' →
  ∃ cs, calls w' = calls w ++ cs ∧
    if ok then
      cs = [Call_RegKey_StartWatching (watch_event e') true;
            Call_ObjectWatcher_StartWatching (watch_event e') true]
    else
      (∃ h, cs = [Call_RegKey_StartWatching h false] ∧
            watcher_ e' = watcher_ e ∧
            os w' = (RegKey_StartWatching (key_ e) (os w)).2) ∨
      cs = [Call_RegKey_StartWatching (watch_event e') true;
            Call_ObjectWatcher_StartWatching (watch_event e') false].
Proof.
  unfold KeyEntry_StartWatching. unfold_monad. split_calls;
    intros [= <- <- <-]; simpl; rewrite <- ?app_assoc; simpl;
    eexists; (split; [reflexivity|]); eauto.
Qed.


(** What one attempt to watch a location logs and releases. *)
Lemma AddKeyToWatchList_log
    rootkey subkey (this this' : ProxyConfigServiceWin) (w w' : World) (ok : bool) :
  AddKeyToWatchList rootkey subkey this w = Done (ok, this') w' →
  ∃ cs, calls w' = calls w ++ cs ∧
    checks cs = 0%nat ∧ observers_added cs = [] ∧
    deletes cs = (if ok then 0 else 1)%nat ∧
    if ok then
      ∃ entry, this' = set_keys_to_watch (keys_to_watch_ this ++ [entry]) this ∧
               watcher_armed_on (watch_event entry) cs
    else
      this' = this ∧
      (cs = [Call_RegKey_Create rootkey subkey KEY_NOTIFY false;
             Call_delete_KeyEntry (RegKey_watch_event
               (RegKey_Create rootkey subkey KEY_NOTIFY RegKey_new (os w)).1.2)] ∨
       ∃ cs', cs = Call_RegKey_Create rootkey subkey KEY_NOTIFY true :: cs').
Proof.
  unfold AddKeyToWatchList, KeyEntry_CreateRegKey, KeyEntry_StartWatching,
    KeyEntry_delete.
  unfold_monad. split_calls; intros [= <- <- <-]; simpl;
    rewrite <- ?app_assoc; simpl;
    (eexists; split; [reflexivity|]); repeat (split; [reflexivity|]).
  - eexists. split; [reflexivity|]. unfold watcher_armed_on.
    do 2 apply list_elem_of_further. apply list_elem_of_here.
  - right. eauto.
  - right. eauto.
  - by left.
Qed.


Lemma deletes_of_entries (keys : list KeyEntry) :
  deletes (map (λ e, Call_delete_KeyEntry (watch_event e)) keys) = length keys.
Proof.
  induction keys as [|e keys IH]; [done|].
  change (deletes (map (λ e, Call_delete_KeyEntry (watch_event e)) (e :: keys)))
    with (S (deletes (map (λ e, Call_delete_KeyEntry (watch_event e)) keys))).
  by rewrite IH.
Qed.

(** The deletion loop of the destructor. *)
Lemma STLDeleteElements_log (keys : list KeyEntry) (w : World) :
  ∃ w',
    STLDeleteElements keys w = Done tt w' ∧
    calls w' = calls w ++ map (λ e, Call_delete_KeyEntry (watch_event e)) keys ∧
    os w' = fold_left
              (λ o e, RegKey_delete (key_ e) (ObjectWatcher_delete (watcher_ e) o))
              keys (os w).
Proof.
  revert w. induction keys as [|e keys IH]; intros w.
  - exists w. simpl. unfold ret. by rewrite app_nil_r.
  - simpl. unfold KeyEntry_delete. unfold_monad.
    match goal with
    | |- context [STLDeleteElements keys ?w0] =>
        destruct (IH w0) as (w' & -> & Hcalls & Hos)
    end.
    exists w'. split; [done|]. simpl in *. split; [|done].
    by rewrite Hcalls, <- app_assoc.
Qed.

(** X3. The destructor deletes every entry of [keys_to_watch_] exactly once, in
    list order, and does nothing else: it always returns, the calls it logs
    are one deletion per entry, and the operating system sees the two member
    destructors of each entry in turn. *)
Theorem ProxyConfigServiceWin_delete_releases_all
    (this : ProxyConfigServiceWin) (w : World) :
  ∃ w',
    ProxyConfigServiceWin_delete this w = Done tt w' ∧
    new_calls w w' =
      map (λ e, Call_delete_KeyEntry (watch_event e)) (keys_to_watch_ this) ∧
    deletes (new_calls w w') = length (keys_to_watch_ this) ∧
    os w' = fold_left
              (λ o e, RegKey_delete (key_ e) (ObjectWatcher_delete (watcher_ e) o))
              (keys_to_watch_ this) (os w).
Proof.
  unfold ProxyConfigServiceWin_delete.
  destruct (STLDeleteElements_log (keys_to_watch_ this) w) as (w' & Hrun & Hcalls & Hos).
  exists w'. split; [done|]. rewrite (new_calls_app w w' _ Hcalls).
  split; [done|]. split; [|done]. apply deletes_of_entries.
Qed.

(** What a watch fire logs. *)
Lemma OnObjectSignaled_log
    object (this this' : ProxyConfigServiceWin) (w w' : World) :
  OnObjectSignaled object this w = Done this' w' →
  ∃ E (rearmed : bool) E' w1 cs,
    keys_to_watch_ this !! find_signalled object (keys_to_watch_ this) = Some E ∧
    KeyEntry_StartWatching E w = Done (rearmed, E') w1 ∧
    calls w1 = calls w ++ cs ∧
    checks cs = 0%nat ∧ deletes cs = 0%nat ∧ observers_added cs = [] ∧
    creations cs = [] ∧
    (rearmed = true → watcher_armed_on (watch_event E') cs) ∧
    this' = set_keys_to_watch
              (if rearmed
               then <[find_signalled object (keys_to_watch_ this) := E']>
                      (keys_to_watch_ this)
               else delete (find_signalled object (keys_to_watch_ this))
                      (keys_to_watch_ this)) this ∧
    w' = {| os := os w1; calls := calls w1 ++ [Call_CheckForChangesNow] |}.
Proof.
  intros Hrun.
  destruct (keys_to_watch_ this !! find_signalled object (keys_to_watch_ this))
    as [E|] eqn:Hit.
  - destruct (OnObjectSignaled_found object this w E Hit)
      as (rearmed & E' & w1 & _ & _ & _ & Harm & _ & _ & _ & Hsig).
    rewrite Hsig in Hrun. injection Hrun as <- <-.
    destruct (KeyEntry_StartWatching_log _ _ _ _ _ Harm) as (cs & Hcs & Hform).
    exists E, rearmed, E', w1, cs. repeat (split; [done|]).
    destruct rearmed.
    + subst cs. repeat (split; [done|]). split; [|done]. intros _.
      apply list_elem_of_further, list_elem_of_here.
    + destruct Hform as [(h & -> & _)| ->]; by repeat (split; [done|]).
  - destruct (OnObjectSignaled_end object this w Hit) as (f & Hcrash). congruence.
Qed.

(** X4. The handler never deletes an entry, not even the one it erases: a
    watch fire logs no deletion, no registry creation and no subscription,
    and leaves the operating system as the re-arming left it.  When the
    re-arming fails the entry is gone from [keys_to_watch_], so the
    destructor run afterwards deletes the remaining entries only: the erased
    entry is never released. *)
Theorem OnObjectSignaled_never_releases
    object (this this' : ProxyConfigServiceWin) (w w' : World) :
  OnObjectSignaled object this w = Done this' w' →
  deletes (new_calls w w') = 0%nat ∧
  creations (new_calls w w') = [] ∧
  observers_added (new_calls w w') = [] ∧
  ∃ i E (rearmed : bool) E' w1,
    keys_to_watch_ this !! i = Some E ∧
    KeyEntry_StartWatching E w = Done (rearmed, E') w1 ∧
    os w' = os w1 ∧
    (rearmed = false →
       keys_to_watch_ this' = delete i (keys_to_watch_ this) ∧
       ∀ w2, ∃ w3,
         ProxyConfigServiceWin_delete this' w2 = Done tt w3 ∧
         new_calls w2 w3 =
           map (λ e, Call_delete_KeyEntry (watch_event e))
               (delete i (keys_to_watch_ this)) ∧
         deletes (new_calls w2 w3) = (length (keys_to_watch_ this) - 1)%nat).
Proof.
  intros Hrun.
  destruct (OnObjectSignaled_log _ _ _ _ _ Hrun)
    as (E & rearmed & E' & w1 & cs & Hit & Harm & Hcs & Hchecks & Hdel & Hobs
        & Hcre & _ & -> & ->).
  assert (new_calls w {| os := os w1; calls := calls w1 ++ [Call_CheckForChangesNow] |}
          = cs ++ [Call_CheckForChangesNow]) as ->.
  { apply new_calls_app. simpl. by rewrite Hcs, <- app_assoc. }
  rewrite deletes_app, creations_app, observers_added_app, Hdel, Hcre, Hobs.
  repeat (split; [done|]).
  exists (find_signalled object (keys_to_watch_ this)), E, rearmed, E', w1.
  repeat (split; [done|]). intros ->. simpl. split; [done|]. intros w2.
  unfold ProxyConfigServiceWin_delete. simpl.
  destruct (STLDeleteElements_log
              (delete (find_signalled object (keys_to_watch_ this))
                 (keys_to_watch_ this)) w2)
    as (w3 & Hdelete & Hcalls & _).
  exists w3. split; [done|]. rewrite (new_calls_app w2 w3 _ Hcalls).
  split; [done|]. rewrite deletes_of_entries.
  rewrite length_delete by eauto. done.
Qed.

(** What start-up logs and releases. *)
Lemma StartWatchingRegistryForChanges_log
    (this this' : ProxyConfigServiceWin) (w w' : World) :
  StartWatchingRegistryForChanges this w = Done this' w' →
  ∃ cs, calls w' = calls w ++ cs ∧
    checks cs = 0%nat ∧ observers_added cs = [] ∧
    (keys_to_watch_ this ≠ [] → this' = this ∧ cs = []) ∧
    (keys_to_watch_ this = [] →
       (length (keys_to_watch_ this') + deletes cs = 3)%nat ∧
       length (creations cs) = 3%nat ∧
       ∀ e, e ∈ keys_to_watch_ this' → watcher_armed_on (watch_event e) cs) ∧
    poll_interval this' = poll_interval this ∧
    get_config_func this' = get_config_func this.
Proof.
  intros Hrun. destruct (decide (keys_to_watch_ this = [])) as [Hempty|Hne].
  - destruct (StartWatchingRegistryForChanges_attempts this w Hempty)
      as (ok1 & ok2 & ok3 & c1 & c2 & c3 & e1 & e2 & e3 & this1 & this2 & this3
          & w1 & w2 & w3 & H1 & H2 & H3 & Hstart & Ht1 & Ht2 & Ht3 & _ & _ & _
          & cs0 & Hcs0 & _ & Hcre).
    rewrite Hstart in Hrun. injection Hrun as <- <-.
    destruct (AddKeyToWatchList_log _ _ _ _ _ _ _ H1)
      as (cs1 & Hcs1 & Hk1 & Ho1 & Hd1 & Hf1).
    destruct (AddKeyToWatchList_log _ _ _ _ _ _ _ H2)
      as (cs2 & Hcs2 & Hk2 & Ho2 & Hd2 & Hf2).
    destruct (AddKeyToWatchList_log _ _ _ _ _ _ _ H3)
      as (cs3 & Hcs3 & Hk3 & Ho3 & Hd3 & Hf3).
    exists (cs1 ++ cs2 ++ cs3).
    assert (calls w3 = calls w ++ cs1 ++ cs2 ++ cs3) as Hcalls.
    { rewrite Hcs3, Hcs2, Hcs1. by rewrite <- !app_assoc. }
    split; [done|].
    split. { rewrite !checks_app. lia. }
    split. { by rewrite !observers_added_app, Ho1, Ho2, Ho3. }
    split; [done|].
    split; [|by subst this3].
    intros _. rewrite Ht3. simpl. rewrite !deletes_app, !length_app.
    split; [|split].
    + rewrite Hd1, Hd2, Hd3. destruct ok1, ok2, ok3; simpl; lia.
    + assert (cs0 = cs1 ++ cs2 ++ cs3) as <-.
      { rewrite Hcs0 in Hcalls. by apply app_inv_head in Hcalls. }
      by rewrite Hcre.
    + intros e He. apply watcher_armed_on_app.
      assert (∀ (ok : bool) (b : KeyEntry)
                (this0 this0' : ProxyConfigServiceWin) (cs : list Call),
                (if ok then
                   ∃ entry, this0' = set_keys_to_watch (keys_to_watch_ this0 ++ [entry]) this0 ∧
                            watcher_armed_on (watch_event entry) cs
                 else this0' = this0 ∧ True) →
                e ∈ contribution ok b →
                keys_to_watch_ this0' = keys_to_watch_ this0 ++ contribution ok b →
                watcher_armed_on (watch_event e) cs) as Hone.
      { clear. intros [] b this0 this0' cs; simpl.
        - intros (entry & -> & Harmed) Hin Hkeys. simpl in Hkeys.
          apply app_inv_head in Hkeys. injection Hkeys as ->.
          apply list_elem_of_singleton in Hin. by subst.
        - intros _ Hin. by apply elem_of_nil in Hin. }
      rewrite !elem_of_app in He. destruct He as [He|[He|He]].
      * left. eapply (Hone ok1 e1 this this1 cs1); [|done|].
        -- destruct ok1; [done|]. by destruct Hf1.
        -- rewrite Ht1, Hempty. done.
      * right. apply watcher_armed_on_app. left.
        eapply (Hone ok2 e2 this1 this2 cs2); [|done|].
        -- destruct ok2; [done|]. by destruct Hf2.
        -- rewrite Ht2, Ht1. done.
      * right. apply watcher_armed_on_app. right.
        eapply (Hone ok3 e3 this2 this3 cs3); [|done|].
        -- destruct ok3; [done|]. by destruct Hf3.
        -- rewrite Ht3, Ht2. simpl. by rewrite <- app_assoc.
  - rewrite (StartWatchingRegistryForChanges_initialized this w Hne) in Hrun.
    injection Hrun as <- <-. exists []. rewrite app_nil_r.
    repeat (split; [done|]). done.
Qed.


Lemma elem_of_insert_inv {A} (l : list A) (i : nat) (x y : A) :
  y ∈ <[i:=x]> l → y = x ∨ y ∈ l.
Proof.
  intros Hin. apply list_elem_of_lookup_1 in Hin as (j & Hj).
  apply list_lookup_insert_Some in Hj as [(_ & -> & _)|(_ & Hj)]; [by left|].
  right. by eapply list_elem_of_lookup_2.
Qed.

(** What one operation logs, and where the entries of the new watch set come
    from. *)
Lemma run_op_log op (this this' : ProxyConfigServiceWin) (w w' : World) :
  run_op op this w = Done this' w' →
  ∃ cs, calls w' = calls w ++ cs ∧
    checks cs = (if is_fire op then 1 else 0)%nat ∧
    observers_added cs =
      match op with Op_AddObserver o => [o] | Op_OnObjectSignaled _ => [] end ∧
    (∀ e, e ∈ keys_to_watch_ this' →
          e ∈ keys_to_watch_ this ∨ watcher_armed_on (watch_event e) cs) ∧
    (length (keys_to_watch_ this') ≤ length (keys_to_watch_ this) `max` 3)%nat.
Proof.
  destruct op as [observer|object]; simpl; intros Hrun.
  - unfold AddObserver, bind in Hrun.
    destruct (StartWatchingRegistryForChanges this w) as [this1 w1|] eqn:Hstart;
      [|done].
    unfold call, ret in Hrun. simpl in Hrun. injection Hrun as <- <-.
    destruct (StartWatchingRegistryForChanges_log _ _ _ _ Hstart)
      as (cs & Hcs & Hchecks & Hobs & Hinit & Hfill & _).
    exists (cs ++ [Call_PollingProxyConfigService_AddObserver observer]). simpl.
    split. { by rewrite Hcs, <- app_assoc. }
    split. { by rewrite checks_app, Hchecks. }
    split. { by rewrite observers_added_app, Hobs. }
    destruct (decide (keys_to_watch_ this = [])) as [Hempty|Hne].
    + destruct (Hfill Hempty) as (Hsum & _ & Harmed). split; [|lia].
      intros e He. right. apply watcher_armed_on_app. left. by apply Harmed.
    + destruct (Hinit Hne) as (-> & _). split; [by left|lia].
  - destruct (OnObjectSignaled_log _ _ _ _ _ Hrun)
      as (E & rearmed & E' & w1 & cs & Hit & _ & Hcs & Hchecks & _ & Hobs & _
          & Harmed & -> & ->).
    exists (cs ++ [Call_CheckForChangesNow]). simpl.
    split. { by rewrite Hcs, <- app_assoc. }
    split. { by rewrite checks_app, Hchecks. }
    split. { by rewrite observers_added_app, Hobs. }
    destruct rearmed.
    + split; [|rewrite length_insert; lia].
      intros e He. apply elem_of_insert_inv in He as [->|He]; [|by left].
      right. apply watcher_armed_on_app. left. by apply Harmed.
    + split.
      * intros e He. left. by eapply list_elem_of_delete_inv.
      * rewrite length_delete by eauto. lia.
Qed.

Lemma find_signalled_bound object (keys : list KeyEntry) :
  (find_signalled object keys ≤ length keys)%nat.
Proof.
  induction keys as [|e keys IH]; simpl; [lia|].
  destruct (watch_event e =? object); lia.
Qed.

Lemma fires_cons op (ops : list Op) :
  fires (op :: ops) = ((if is_fire op then 1 else 0) + fires ops)%nat.
Proof. by destruct op. Qed.

(** X6. The service never watches more than three registry keys: starting from
    the newly constructed object, and more generally from any object with at
    most three entries, every sequence of subscriptions and watch fires that
    runs to its end leaves at most three entries in [keys_to_watch_]. *)
Theorem watch_set_at_most_three
    ops (this this' : ProxyConfigServiceWin) (w w' : World) :
  (length (keys_to_watch_ this) ≤ 3)%nat →
  run_ops ops this w = Done this' w' →
  (length (keys_to_watch_ this') ≤ 3)%nat.
Proof.
  revert this w. induction ops as [|op ops IH]; intros this w Hle; simpl.
  - unfold ret. by intros [= <- _].
  - unfold bind. destruct (run_op op this w) as [this1 w1|] eqn:Hop; [|done].
    apply IH. destruct (run_op_log _ _ _ _ _ Hop) as (_ & _ & _ & _ & _ & Hmax).
    lia.
Qed.

(** X7. Every watch fire requests exactly one change check and a subscription
    requests none: over any sequence of operations that runs to its end, the
    number of [CheckForChangesNow()] calls is the number of watch fires, and
    the observers handed to the base class are exactly the observers
    subscribed, in order. *)
Theorem checks_count_fires
    ops (this this' : ProxyConfigServiceWin) (w w' : World) :
  run_ops ops this w = Done this' w' →
  checks (new_calls w w') = fires ops ∧
  observers_added (new_calls w w') = subscriptions ops.
Proof.
  intros Hrun.
  assert (∃ cs, calls w' = calls w ++ cs ∧ checks cs = fires ops ∧
                observers_added cs = subscriptions ops) as (cs & Hcs & Hc & Ho).
  { revert this w Hrun. induction ops as [|op ops IH]; intros this w; simpl.
    - unfold ret. intros [= _ <-]. exists []. by rewrite app_nil_r.
    - unfold bind. destruct (run_op op this w) as [this1 w1|] eqn:Hop; [|done].
      intros Hrest. destruct (IH _ _ Hrest) as (cs2 & Hcs2 & Hc2 & Ho2).
      destruct (run_op_log _ _ _ _ _ Hop) as (cs1 & Hcs1 & Hc1 & Ho1 & _).
      exists (cs1 ++ cs2). split; [by rewrite Hcs2, Hcs1, <- app_assoc|].
      rewrite checks_app, observers_added_app, Hc1, Hc2, Ho1, Ho2.
      rewrite fires_cons. by destruct op. }
  by rewrite (new_calls_app w w' cs Hcs).
Qed.

(** X8. Every entry in the watch set has had its current watch event handed
    successfully to its object watcher: the property holds of the newly
    constructed object, and every sequence of operations that runs to its
    end preserves it.  This is what makes the handler's search by watch
    event meaningful. *)
Theorem watched_entries_are_armed
    ops (this this' : ProxyConfigServiceWin) (w w' : World) :
  (∀ e, e ∈ keys_to_watch_ this → watcher_armed_on (watch_event e) (calls w)) →
  run_ops ops this w = Done this' w' →
  ∀ e, e ∈ keys_to_watch_ this' → watcher_armed_on (watch_event e) (calls w').
Proof.
  revert this w. induction ops as [|op ops IH]; intros this w Hinv; simpl.
  - unfold ret. by intros [= <- <-].
  - unfold bind. destruct (run_op op this w) as [this1 w1|] eqn:Hop; [|done].
    apply IH. destruct (run_op_log _ _ _ _ _ Hop) as (cs & Hcs & _ & _ & Hfrom & _).
    intros e He. rewrite Hcs. apply watcher_armed_on_app.
    destruct (Hfrom e He) as [Hold|Hnew]; [left; by apply Hinv|by right].
Qed.

(** X9. Only a watch fire can stop a run: a subscription always returns, so a
    sequence of operations that stops short contains a watch fire, and the
    fault is the failed assertion in a debug build and the dereferenced end
    iterator in a release build. *)
Theorem only_fires_fault
    ops (this : ProxyConfigServiceWin) (w w' : World) (f : Fault) :
  run_ops ops this w = Crash f w' →
  f = (if dcheck_is_on then DCHECK_failed else end_iterator_dereferenced) ∧
  (0 < fires ops)%nat ∧
  ∀ observer this0 w0, ∃ this1 w1, AddObserver observer this0 w0 = Done this1 w1.
Proof.
  intros Hrun.
  assert (∀ observer this0 w0, ∃ this1 w1,
            AddObserver observer this0 w0 = Done this1 w1) as Hadd.
  { intros observer this0 w0. unfold AddObserver, bind.
    destruct (decide (keys_to_watch_ this0 = [])) as [Hempty|Hne].
    - destruct (StartWatchingRegistryForChanges_attempts this0 w0 Hempty)
        as (? & ? & ? & ? & ? & ? & ? & ? & ? & ? & ? & this3 & ? & ? & w3
            & _ & _ & _ & -> & _).
      unfold call, ret. simpl. eauto.
    - rewrite (StartWatchingRegistryForChanges_initialized this0 w0 Hne).
      unfold call, ret. simpl. eauto. }
  split; [|split; [|exact Hadd]].
  - revert this w Hrun. induction ops as [|op ops IH]; intros this w; simpl; [done|].
    unfold bind. destruct (run_op op this w) as [this1 w1|f1 w1] eqn:Hop.
    + apply IH.
    + intros [= <- <-]. destruct op as [observer|object]; simpl in Hop.
      * destruct (Hadd observer this w) as (? & ? & Hdone). congruence.
      * destruct (keys_to_watch_ this !! find_signalled object (keys_to_watch_ this))
          as [E|] eqn:Hit.
        -- destruct (OnObjectSignaled_found object this w E Hit)
             as (? & ? & ? & ? & ? & ? & _ & _ & _ & _ & Hsig). congruence.
        -- assert (find_signalled object (keys_to_watch_ this)
                     = length (keys_to_watch_ this)) as Hend.
           { apply lookup_ge_None in Hit.
             pose proof (find_signalled_bound object (keys_to_watch_ this)). lia. }
           revert Hop. unfold OnObjectSignaled, DCHECK. rewrite Hit, Hend.
           rewrite bool_decide_eq_true_2 by done.
           destruct dcheck_is_on; unfold_monad; congruence.
  - revert this w Hrun. induction ops as [|op ops IH]; intros this w; simpl; [done|].
    unfold bind. rewrite fires_cons. destruct op as [observer|object]; [|simpl; lia].
    destruct (run_op _ this w) as [this1 w1|f1 w1] eqn:Hop.
    + apply IH.
    + simpl in Hop. destruct (Hadd observer this w) as (? & ? & Hdone). congruence.
Qed.

Lemma frees_app (cs1 cs2 : list Call) : frees (cs1 ++ cs2) = frees cs1 ++ frees cs2.
Proof. unfold frees. apply omap_app. Qed.

(** What [FreeIEConfig] logs. *)
Lemma FreeIEConfig_log ie (w : World) :
  ∃ w',
    FreeIEConfig ie w = Done tt w' ∧ os w' = os w ∧
    calls w' = calls w ++ map Call_GlobalFree (strings_of ie).
Proof.
  unfold FreeIEConfig, strings_of.
  destruct (lpszAutoConfigUrl ie), (lpszProxy ie), (lpszProxyBypass ie);
    unfold_monad; rewrite <- ?app_assoc; simpl;
    eexists; (split; [reflexivity|]); (split; [reflexivity|]); simpl;
    by rewrite ?app_nil_r.
Qed.

Lemma frees_only (l : list wstring) :
  frees (map Call_GlobalFree l) = l ∧
  checks (map Call_GlobalFree l) = 0%nat ∧
  creations (map Call_GlobalFree l) = [] ∧
  deletes (map Call_GlobalFree l) = 0%nat ∧
  observers_added (map Call_GlobalFree l) = [].
Proof.
  induction l as [|p l (IH1 & IH2 & IH3 & IH4 & IH5)]; [done|].
  repeat split.
  - change (frees (map Call_GlobalFree (p :: l)))
      with (p :: frees (map Call_GlobalFree l)). by rewrite IH1.
  - exact IH2.
  - exact IH3.
  - exact IH4.
  - exact IH5.
Qed.

(** X10. [GetCurrentProxyConfig] releases exactly what the platform returned:
    when [WinHttpGetIEProxyConfigForCurrentUser] succeeds the result is
    [SetFromIEConfig] applied to the configuration passed in, and every
    non-null string of the returned settings is freed exactly once, in the
    order PAC URL, proxy, bypass list, with no error logged; when it fails
    nothing is freed.  In both cases the operating system is left as the
    platform call left it, and the fetch touches neither the registry
    watches nor the base class. *)
Theorem GetCurrentProxyConfig_frees_what_it_got (config : ProxyConfig) (w : World) :
  let '(ok, ie_config, o) :=
    WinHttpGetIEProxyConfigForCurrentUser ie_config_zero (os w) in
  ∃ w',
    GetCurrentProxyConfig ParseFromString CreateDirect config w =
      Done (if ok then SetFromIEConfig ParseFromString config ie_config
            else CreateDirect) w' ∧
    os w' = o ∧
    frees (new_calls w w') = (if ok then strings_of ie_config else []) ∧
    length (new_calls w w') =
      (if ok then 1 + length (strings_of ie_config) else 2)%nat ∧
    checks (new_calls w w') = 0%nat ∧
    creations (new_calls w w') = [] ∧
    deletes (new_calls w w') = 0%nat ∧
    observers_added (new_calls w w') = [].
Proof.
  destruct (WinHttpGetIEProxyConfigForCurrentUser ie_config_zero (os w))
    as [[ok ie] o] eqn:E.
  unfold GetCurrentProxyConfig. unfold bind at 1. unfold sys at 1. rewrite E.
  destruct ok; unfold_monad.
  - match goal with
    | |- context [FreeIEConfig ie ?w0] =>
        destruct (FreeIEConfig_log ie w0) as (w' & -> & Hos & Hcalls)
    end.
    simpl in Hos, Hcalls. exists w'. split; [done|]. split; [done|].
    rewrite (new_calls_app w w'
               (Call_WinHttpGetIEProxyConfigForCurrentUser true
                  :: map Call_GlobalFree (strings_of ie)))
      by (by rewrite Hcalls, <- app_assoc).
    destruct (frees_only (strings_of ie)) as (H1 & H2 & H3 & H4 & H5).
    split; [exact H1|]. split; [simpl; by rewrite length_map|].
    split; [exact H2|]. split; [exact H3|]. split; [exact H4|exact H5].
  - eexists. split; [reflexivity|]. split; [done|].
    erewrite new_calls_app; [|simpl; rewrite <- app_assoc; reflexivity]. done.
Qed.

(** X11. The search of the handler is a first-match search: it stops inside
    the list exactly when some entry has the signalled handle, the entry it
    stops on has that handle, and no entry before it has; so when two
    entries share a watch event, it is always the earlier one that is
    re-armed. *)
Theorem find_signalled_first_match object (keys : list KeyEntry) :
  (find_signalled object keys ≤ length keys)%nat ∧
  (∀ j e, (j < find_signalled object keys)%nat →
          keys !! j = Some e → watch_event e ≠ object) ∧
  (∀ e, keys !! find_signalled object keys = Some e → watch_event e = object) ∧
  ((find_signalled object keys < length keys)%nat ↔
   ∃ e, e ∈ keys ∧ watch_event e = object).
Proof.
  induction keys as [|e0 keys (IHle & IHbefore & IHat & IHiff)]; simpl.
  - split; [lia|]. split; [intros; lia|]. split; [done|].
    split; [lia|]. intros (e & He & _). by apply elem_of_nil in He.
  - destruct (Z.eqb_spec (watch_event e0) object) as [Heq|Hne].
    + split; [lia|]. split; [intros; lia|].
      split; [by intros e [= <-]|]. split; [|lia].
      intros _. exists e0. split; [apply list_elem_of_here|done].
    + split; [lia|]. split; [|split; [exact IHat|]].
      * intros [|j] e Hj; simpl; [by intros [= <-]|]. apply IHbefore. lia.
      * split.
        -- intros Hlt. destruct (proj1 IHiff) as (e & He & Hev); [lia|].
           exists e. split; [by apply list_elem_of_further|done].
        -- intros (e & He & Hev). apply elem_of_cons in He as [->|He]; [done|].
           assert (find_signalled object keys < length keys)%nat; [|lia].
           apply IHiff. eauto.
Qed.

(** The handler given a handle no entry has. *)
Lemma OnObjectSignaled_unknown object (this : ProxyConfigServiceWin) (w : World) :
  (∀ e, e ∈ keys_to_watch_ this → watch_event e ≠ object) →
  OnObjectSignaled object this w =
    Crash (if dcheck_is_on then DCHECK_failed else end_iterator_dereferenced) w.
Proof.
  intros Hnone. pose proof (find_signalled_none object _ Hnone) as Hend.
  unfold OnObjectSignaled, DCHECK. rewrite Hend.
  rewrite bool_decide_eq_true_2 by done. simpl. rewrite andb_true_r.
  destruct dcheck_is_on; unfold bind, crash, ret; simpl; [done|].
  by rewrite (lookup_ge_None_2 (keys_to_watch_ this) _ (le_n _)).
Qed.

(** X12. A re-armed entry keeps its place and is found again: when a watch fire
    for the entry at position [i] re-arms it and the registry key keeps its
    watch event, a later fire with the same handle, in any world, again
    returns, having re-armed or erased the entry at position [i]. *)
Theorem OnObjectSignaled_again_after_rearm
    object (this this' : ProxyConfigServiceWin) (w w' w2 : World)
    (i : nat) (E E' : KeyEntry) (w1 : World) :
  keys_to_watch_ this !! i = Some E →
  watch_event E = object →
  (∀ j e, (j < i)%nat → keys_to_watch_ this !! j = Some e → watch_event e ≠ object) →
  KeyEntry_StartWatching E w = Done (true, E') w1 →
  watch_event E' = object →
  OnObjectSignaled object this w = Done this' w' →
  keys_to_watch_ this' = <[i := E']> (keys_to_watch_ this) ∧
  ∃ (rearmed : bool) E'' w3 this'' w'',
    KeyEntry_StartWatching E' w2 = Done (rearmed, E'') w3 ∧
    OnObjectSignaled object this' w2 = Done this'' w'' ∧
    keys_to_watch_ this'' =
      (if rearmed then <[i := E'']> (keys_to_watch_ this)
       else delete i (keys_to_watch_ this)).
Proof.
  intros Hi HE Hfirst Harm HE' Hrun.
  pose proof (find_signalled_first object _ i E Hi HE Hfirst) as Hit.
  destruct (OnObjectSignaled_log _ _ _ _ _ Hrun)
    as (E0 & rearmed0 & E0' & w0 & cs & Hat & Harm0 & _ & _ & _ & _ & _ & _ & -> & _).
  rewrite Hit in Hat |- *. rewrite Hi in Hat. injection Hat as <-.
  rewrite Harm in Harm0. injection Harm0 as <- <- <-. simpl.
  split; [done|].
  assert (i < length (keys_to_watch_ this))%nat as Hlt by (by eapply lookup_lt_Some).
  assert (find_signalled object (<[i:=E']> (keys_to_watch_ this)) = i) as Hit'.
  { apply (find_signalled_first object _ i E').
    - by apply list_lookup_insert_eq.
    - done.
    - intros j e Hj. rewrite list_lookup_insert_ne by lia. by apply Hfirst. }
  destruct (OnObjectSignaled_found object
              (set_keys_to_watch (<[i:=E']> (keys_to_watch_ this)) this) w2 E')
    as (rearmed & E'' & w3 & _ & _ & _ & Harm2 & _ & _ & _ & Hsig).
  { simpl. rewrite Hit'. by apply list_lookup_insert_eq. }
  simpl in Hsig. rewrite Hit' in Hsig.
  exists rearmed, E'', w3. do 2 eexists. split; [exact Harm2|].
  split; [exact Hsig|]. simpl. destruct rearmed.
  - by rewrite list_insert_insert_eq.
  - by rewrite delete_insert_same.
Qed.

(** X13. A signal that arrives after its entry was erased violates the
    handler's precondition: when the fired entry is the only one with the
    signalled handle and re-arming it fails, the handler erases it, and a
    later call with the same handle, in any world, stops at the assertion
    (debug build) or dereferences the end iterator (release build). *)
Theorem OnObjectSignaled_stale_after_erase
    object (this this' : ProxyConfigServiceWin) (w w' w2 : World)
    (i : nat) (E E' : KeyEntry) (w1 : World) :
  keys_to_watch_ this !! i = Some E →
  watch_event E = object →
  (∀ j e, j ≠ i → keys_to_watch_ this !! j = Some e → watch_event e ≠ object) →
  KeyEntry_StartWatching E w = Done (false, E') w1 →
  OnObjectSignaled object this w = Done this' w' →
  keys_to_watch_ this' = delete i (keys_to_watch_ this) ∧
  OnObjectSignaled object this' w2 =
    Crash (if dcheck_is_on then DCHECK_failed else end_iterator_dereferenced) w2.
Proof.
  intros Hi HE Hothers Harm Hrun.
  assert (find_signalled object (keys_to_watch_ this) = i) as Hit.
  { apply (find_signalled_first object _ i E Hi HE).
    intros j e Hj. apply Hothers. lia. }
  destruct (OnObjectSignaled_log _ _ _ _ _ Hrun)
    as (E0 & rearmed0 & E0' & w0 & cs & Hat & Harm0 & _ & _ & _ & _ & _ & _ & -> & _).
  rewrite Hit in Hat |- *. rewrite Hi in Hat. injection Hat as <-.
  rewrite Harm in Harm0. injection Harm0 as <- <- <-. simpl.
  split; [done|]. apply OnObjectSignaled_unknown. simpl.
  intros e He. apply list_elem_of_lookup_1 in He as (j & Hj).
  destruct (decide (j < i)%nat) as [Hlt|Hge].
  - rewrite list_lookup_delete_lt in Hj by done. apply (Hothers j e); [lia|done].
  - rewrite list_lookup_delete_ge in Hj by lia. apply (Hothers (S j) e); [lia|done].
Qed.

(** One operation never deletes an entry that was not created. *)
Lemma run_op_account op (this this' : ProxyConfigServiceWin) (w w' : World) :
  run_op op this w = Done this' w' →
  ∃ cs, calls w' = calls w ++ cs ∧
    (length (keys_to_watch_ this') + deletes cs
     ≤ length (keys_to_watch_ this) + length (creations cs))%nat.
Proof.
  destruct op as [observer|object]; simpl; intros Hrun.
  - unfold AddObserver, bind in Hrun.
    destruct (StartWatchingRegistryForChanges this w) as [this1 w1|] eqn:Hstart;
      [|done].
    unfold call, ret in Hrun. simpl in Hrun. injection Hrun as <- <-.
    destruct (StartWatchingRegistryForChanges_log _ _ _ _ Hstart)
      as (cs & Hcs & _ & _ & Hinit & Hfill & _).
    exists (cs ++ [Call_PollingProxyConfigService_AddObserver observer]). simpl.
    split. { by rewrite Hcs, <- app_assoc. }
    rewrite deletes_app, creations_app, length_app.
    change (deletes [Call_PollingProxyConfigService_AddObserver observer]) with 0%nat.
    change (creations [Call_PollingProxyConfigService_AddObserver observer])
      with (@nil (HKEY * wstring * bool)).
    destruct (decide (keys_to_watch_ this = [])) as [Hempty|Hne].
    + destruct (Hfill Hempty) as (Hsum & Hcre & _). simpl. lia.
    + destruct (Hinit Hne) as (-> & ->). simpl. lia.
  - destruct (OnObjectSignaled_log _ _ _ _ _ Hrun)
      as (E & rearmed & E' & w1 & cs & Hit & _ & Hcs & _ & Hdel & _ & Hcre
          & _ & -> & ->).
    exists (cs ++ [Call_CheckForChangesNow]). simpl.
    split. { by rewrite Hcs, <- app_assoc. }
    rewrite deletes_app, creations_app, Hdel, Hcre. simpl.
    change (deletes [Call_CheckForChangesNow]) with 0%nat.
    destruct rearmed.
    + rewrite length_insert. lia.
    + rewrite length_delete by eauto. lia.
Qed.


(** X15. What [SetFromIEConfig] writes when the IE settings carry a value: the
    auto-detect flag becomes the disjunction of [fAutoDetect] and the flag
    passed in; a non-null PAC URL replaces the one passed in; a non-null
    proxy string is parsed into the proxy rules before any bypass rule is
    added, so the bypass rules of the result are the rules [ParseFromString]
    left, extended by one [AddRuleFromString] per token, in token order, and
    adding bypass rules never alters the parsed servers. *)
Theorem SetFromIEConfig_writes
    (config : ProxyConfig) (ie_config : WINHTTP_CURRENT_USER_IE_PROXY_CONFIG) :
  let config' := SetFromIEConfig ParseFromString config ie_config in
  let parsed :=
    match lpszProxy ie_config with
    | Some p => ParseFromString (WideToASCII p) (proxy_rules_ config)
    | None => proxy_rules_ config
    end in
  auto_detect_ config' = fAutoDetect ie_config || auto_detect_ config ∧
  pac_url_ config' = from_option GURL_of (pac_url_ config) (lpszAutoConfigUrl ie_config) ∧
  servers (proxy_rules_ config') = servers parsed ∧
  bypass_rules (proxy_rules_ config') =
    match lpszProxyBypass ie_config with
    | Some p =>
        fold_left (λ b token, AddRuleFromString token b)
          (StringTokenizer (WideToASCII p) bypass_delims) (bypass_rules parsed)
    | None => bypass_rules parsed
    end.
Proof.
  assert (∀ tokens b,
            add_bypass_rules tokens b
            = fold_left (λ b token, AddRuleFromString token b) tokens b) as Hfold.
  { induction tokens as [|t tokens IH]; intros b; [done|]. simpl. apply IH. }
  unfold SetFromIEConfig.
  destruct ie_config as [auto url proxy bypass]; simpl.
  destruct auto, url, proxy, bypass; simpl; rewrite ?Hfold; done.
Qed.

End ServiceLog.

(** ** The further facts at concrete runs of the scripted system *)

Section MoreRuns.

Import Scripted.

(** A run that comes to its end on evaluation did not stop short. *)
Ltac not_crashed H :=
  exfalso;
  match type of H with
  | ?r = Crash _ _ =>
      assert (succeeded r = true) as Hs by (vm_compute; reflexivity);
      rewrite H in Hs; discriminate Hs
  end.



(** The second entry fires and cannot be re-armed: it is erased, never
    deleted. *)
Lemma OnObjectSignaled_never_releases_run :
  match OnObjectSignaled 103 armed_service (world [false]) with
  | Done this' w' =>
      deletes (new_calls (world [false]) w') = 0%nat ∧
      creations (new_calls (world [false]) w') = [] ∧
      observers_added (new_calls (world [false]) w') = [] ∧
      ∃ i E (rearmed : bool) E' w1,
        keys_to_watch_ armed_service !! i = Some E ∧
        KeyEntry_StartWatching E (world [false]) = Done (rearmed, E') w1 ∧
        os w' = os w1 ∧
        (rearmed = false →
           keys_to_watch_ this' = delete i (keys_to_watch_ armed_service) ∧
           ∀ w2, ∃ w3,
             ProxyConfigServiceWin_delete this' w2 = Done tt w3 ∧
             new_calls w2 w3 =
               map (λ e, Call_delete_KeyEntry (watch_event e))
                   (delete i (keys_to_watch_ armed_service)) ∧
             deletes (new_calls w2 w3) =
               (length (keys_to_watch_ armed_service) - 1)%nat)
  | Crash _ _ => False
  end.
Proof.
  destruct (OnObjectSignaled _ armed_service _) as [this' w'|f w'] eqn:Hrun.
  - exact (OnObjectSignaled_never_releases _ _ _ _ _ Hrun).
  - not_crashed Hrun.
Defined.


Lemma watch_set_at_most_three_run :
  match run_ops busy_run service busy_world with
  | Done this' _ => (length (keys_to_watch_ this') ≤ 3)%nat
  | Crash _ _ => False
  end.
Proof.
  destruct (run_ops busy_run service busy_world) as [this' w'|f w'] eqn:Hrun.
  - exact (watch_set_at_most_three busy_run service this' busy_world w'
             (Nat.le_0_l 3) Hrun).
  - not_crashed Hrun.
Defined.

Lemma checks_count_fires_run :
  match run_ops busy_run service busy_world with
  | Done this' w' =>
      checks (new_calls busy_world w') = fires busy_run ∧
      observers_added (new_calls busy_world w') = subscriptions busy_run
  | Crash _ _ => False
  end.
Proof.
  destruct (run_ops busy_run service busy_world) as [this' w'|f w'] eqn:Hrun.
  - exact (checks_count_fires _ _ _ _ _ Hrun).
  - not_crashed Hrun.
Defined.

Lemma watched_entries_are_armed_run :
  match run_ops busy_run service busy_world with
  | Done this' w' =>
      ∀ e, e ∈ keys_to_watch_ this' → watcher_armed_on (watch_event e) (calls w')
  | Crash _ _ => False
  end.
Proof.
  destruct (run_ops busy_run service busy_world) as [this' w'|f w'] eqn:Hrun.
  - refine (watched_entries_are_armed busy_run service this' busy_world w' _ Hrun).
    intros e He. exfalso. exact (proj1 (elem_of_nil e) He).
  - not_crashed Hrun.
Defined.

(** A fire before any subscription. *)
Lemma only_fires_fault_run :
  end_iterator_dereferenced
    = (if dcheck_is_on then DCHECK_failed else end_iterator_dereferenced) ∧
  (0 < fires [Op_OnObjectSignaled 5%Z])%nat ∧
  ∀ observer (this0 : ProxyConfigServiceWin) w0,
    ∃ this1 w1, AddObserver observer this0 w0 = Done this1 w1.
Proof.
  apply (only_fires_fault [Op_OnObjectSignaled 5] service (world []) (world [])
           end_iterator_dereferenced).
  reflexivity.
Defined.

(** The second of three entries is found, and is the first with its handle. *)
Lemma find_signalled_first_match_run :
  (find_signalled 103%Z (keys_to_watch_ armed_service)
     < length (keys_to_watch_ armed_service))%nat.
Proof.
  apply (proj2 (proj2 (proj2 (proj2
           (find_signalled_first_match 103 (keys_to_watch_ armed_service)))))).
  exists (watched 102 103). split; [|reflexivity].
  apply list_elem_of_further, list_elem_of_here.
Defined.

(** The second entry fires twice; both times it can be re-armed. *)
Lemma OnObjectSignaled_again_after_rearm_run :
  match OnObjectSignaled 103 armed_service (world []) with
  | Done this' w' =>
      keys_to_watch_ this' = <[1%nat := watched 102 103]> (keys_to_watch_ armed_service) ∧
      ∃ (rearmed : bool) E'' w3 this'' w'',
        KeyEntry_StartWatching (watched 102 103) w' = Done (rearmed, E'') w3 ∧
        OnObjectSignaled 103 this' w' = Done this'' w'' ∧
        keys_to_watch_ this'' =
          (if rearmed then <[1%nat := E'']> (keys_to_watch_ armed_service)
           else delete 1%nat (keys_to_watch_ armed_service))
  | Crash _ _ => False
  end.
Proof.
  destruct (OnObjectSignaled 103 armed_service (world [])) as [this' w'|f w'] eqn:Hrun.
  - refine (OnObjectSignaled_again_after_rearm 103 armed_service this' (world []) w' w'
              1 (watched 102 103) (watched 102 103) rearmed_world
              eq_refl eq_refl _ eq_refl eq_refl Hrun).
    intros [|[|j]] e Hj; [|lia|lia]. simpl. intros [= <-]. vm_compute. discriminate.
  - not_crashed Hrun.
Defined.

(** The second entry fires, cannot be re-armed, and is signalled again. *)
Lemma OnObjectSignaled_stale_after_erase_run :
  match OnObjectSignaled 103 armed_service (world [false]) with
  | Done this' w' =>
      keys_to_watch_ this' = delete 1%nat (keys_to_watch_ armed_service) ∧
      OnObjectSignaled 103 this' w' =
        Crash (if dcheck_is_on then DCHECK_failed else end_iterator_dereferenced) w'
  | Crash _ _ => False
  end.
Proof.
  destruct (OnObjectSignaled 103 armed_service (world [false]))
    as [this' w'|f w'] eqn:Hrun.
  - eapply (OnObjectSignaled_stale_after_erase 103 armed_service this' (world [false])
              w' w' 1 (watched 102 103)).
    + reflexivity.
    + reflexivity.
    + intros [|[|[|j]]] e Hj; simpl; try done; intros [= <-]; vm_compute; discriminate.
    + reflexivity.
    + exact Hrun.
  - not_crashed Hrun.
Defined.


End MoreRuns.

(** ** Watch fires and start-up, in terms of what the operating system answers *)

Section WatchSetFacts.

Context `{W32 : Win32} `{Chr : Chromium}.
Variable ParseFromString : string -> ProxyRules -> ProxyRules.
Variable CreateDirect : ProxyConfig.

Ltac unfold_monad :=
  unfold bind, ret, call, sys, sys_, crash; simpl.

(** One attempt to watch a location always returns, and does what the
    answers of the operating system dictate. *)
Lemma AddKeyToWatchList_attempt
    rootkey subkey (this : ProxyConfigServiceWin) (w : World) :
  ∃ (ok : bool) kept w',
    AddKeyToWatchList rootkey subkey this w =
      Done (ok, set_keys_to_watch (keys_to_watch_ this ++ kept) this) w' ∧
    watch_attempt rootkey subkey w ok kept w'.
Proof.
  unfold AddKeyToWatchList, KeyEntry_CreateRegKey, KeyEntry_StartWatching,
    KeyEntry_delete, watch_attempt, watch_event.
  unfold_monad.
  destruct (RegKey_Create rootkey subkey KEY_NOTIFY RegKey_new (os w))
    as [[created k] o1] eqn:Ecreate.
  destruct created; simpl.
  - destruct (RegKey_StartWatching k o1) as [[ok1 k1] o2] eqn:Ewatch.
    destruct ok1; simpl.
    + destruct (ObjectWatcher_StartWatching (RegKey_watch_event k1)
                  ObjectWatcher_new o2) as [[ok2 wt] o3] eqn:Earm.
      destruct ok2; simpl.
      * exists true, [{| key_ := k1; watcher_ := wt |}]. eexists.
        split; [reflexivity|]. exists true, k, o1. split; [done|].
        exists true, k1, o2. split; [done|]. exists true, wt, o3.
        split; [done|]. by rewrite <- !app_assoc.
      * exists false, []. eexists. rewrite app_nil_r, set_keys_to_watch_same.
        split; [reflexivity|]. exists true, k, o1. split; [done|].
        exists true, k1, o2. split; [done|]. exists false, wt, o3.
        split; [done|]. by rewrite <- !app_assoc.
    + exists false, []. eexists. rewrite app_nil_r, set_keys_to_watch_same.
      split; [reflexivity|]. exists true, k, o1. split; [done|].
      exists false, k1, o2. split; [done|]. by rewrite <- !app_assoc.
  - exists false, []. eexists. rewrite app_nil_r, set_keys_to_watch_same.
    split; [reflexivity|]. exists false, k, o1. split; [done|].
    by rewrite <- !app_assoc.
Qed.

(** Start-up on an empty watch set: the three attempts, one after the other. *)
Lemma start_up_attempts (this : ProxyConfigServiceWin) (w : World) :
  keys_to_watch_ this = [] →
  ∃ (ok1 ok2 ok3 : bool) kept1 kept2 kept3 w1 w2 w3,
    watch_attempt HKEY_CURRENT_USER internet_settings w ok1 kept1 w1 ∧
    watch_attempt HKEY_LOCAL_MACHINE internet_settings w1 ok2 kept2 w2 ∧
    watch_attempt HKEY_LOCAL_MACHINE policies_internet_settings w2 ok3 kept3 w3 ∧
    AddKeyToWatchList HKEY_CURRENT_USER internet_settings this w =
      Done (ok1, set_keys_to_watch kept1 this) w1 ∧
    AddKeyToWatchList HKEY_LOCAL_MACHINE internet_settings
        (set_keys_to_watch kept1 this) w1 =
      Done (ok2, set_keys_to_watch (kept1 ++ kept2) this) w2 ∧
    AddKeyToWatchList HKEY_LOCAL_MACHINE policies_internet_settings
        (set_keys_to_watch (kept1 ++ kept2) this) w2 =
      Done (ok3, set_keys_to_watch (kept1 ++ kept2 ++ kept3) this) w3 ∧
    StartWatchingRegistryForChanges this w =
      Done (set_keys_to_watch (kept1 ++ kept2 ++ kept3) this) w3.
Proof.
  intros Hempty.
  destruct (AddKeyToWatchList_attempt HKEY_CURRENT_USER internet_settings this w)
    as (ok1 & kept1 & w1 & H1 & A1).
  rewrite Hempty in H1.
  assert (AddKeyToWatchList HKEY_CURRENT_USER internet_settings this w =
            Done (ok1, set_keys_to_watch kept1 this) w1) as H1' by exact H1.
  destruct (AddKeyToWatchList_attempt HKEY_LOCAL_MACHINE internet_settings
              (set_keys_to_watch kept1 this) w1)
    as (ok2 & kept2 & w2 & H2 & A2).
  assert (AddKeyToWatchList HKEY_LOCAL_MACHINE internet_settings
            (set_keys_to_watch kept1 this) w1 =
            Done (ok2, set_keys_to_watch (kept1 ++ kept2) this) w2) as H2' by exact H2.
  destruct (AddKeyToWatchList_attempt HKEY_LOCAL_MACHINE policies_internet_settings
              (set_keys_to_watch (kept1 ++ kept2) this) w2)
    as (ok3 & kept3 & w3 & H3 & A3).
  assert (AddKeyToWatchList HKEY_LOCAL_MACHINE policies_internet_settings
            (set_keys_to_watch (kept1 ++ kept2) this) w2 =
            Done (ok3, set_keys_to_watch (kept1 ++ kept2 ++ kept3) this) w3) as H3'.
  { rewrite H3. simpl. by rewrite <- app_assoc. }
  exists ok1, ok2, ok3, kept1, kept2, kept3, w1, w2, w3.
  repeat (split; [done|]).
  rewrite (StartWatchingRegistryForChanges_empty this w Hempty).
  unfold bind. rewrite H1'. cbn [snd]. rewrite H2'. cbn [snd]. by rewrite H3'.
Qed.

(** C6. Start-up on an empty watch set attempts exactly three locations, in
    this order and each whatever the others gave: the per-user Internet
    Settings key, the per-machine Internet Settings key and the machine
    policy Internet Settings key.  Each attempt creates the registry key
    and, if that succeeds, arms the registry watch and then the object
    watcher on the key's watch event; the location contributes its armed
    entry when all three calls succeed, and otherwise nothing, the entry
    being deleted.  The resulting watch set is the contributions in order,
    so a location that fails is the only one missing. *)
Theorem StartWatchingRegistryForChanges_three_attempts
    (this : ProxyConfigServiceWin) (w : World) :
  keys_to_watch_ this = [] →
  ∃ (ok1 ok2 ok3 : bool) kept1 kept2 kept3 w1 w2 w3,
    watch_attempt HKEY_CURRENT_USER internet_settings w ok1 kept1 w1 ∧
    watch_attempt HKEY_LOCAL_MACHINE internet_settings w1 ok2 kept2 w2 ∧
    watch_attempt HKEY_LOCAL_MACHINE policies_internet_settings w2 ok3 kept3 w3 ∧
    AddKeyToWatchList HKEY_CURRENT_USER internet_settings this w =
      Done (ok1, set_keys_to_watch kept1 this) w1 ∧
    AddKeyToWatchList HKEY_LOCAL_MACHINE internet_settings
        (set_keys_to_watch kept1 this) w1 =
      Done (ok2, set_keys_to_watch (kept1 ++ kept2) this) w2 ∧
    AddKeyToWatchList HKEY_LOCAL_MACHINE policies_internet_settings
        (set_keys_to_watch (kept1 ++ kept2) this) w2 =
      Done (ok3, set_keys_to_watch (kept1 ++ kept2 ++ kept3) this) w3 ∧
    StartWatchingRegistryForChanges this w =
      Done (set_keys_to_watch (kept1 ++ kept2 ++ kept3) this) w3 ∧
    keys_to_watch_ (set_keys_to_watch (kept1 ++ kept2 ++ kept3) this)
      = kept1 ++ kept2 ++ kept3.
Proof.
  intros Hempty.
  destruct (start_up_attempts this w Hempty)
    as (ok1 & ok2 & ok3 & kept1 & kept2 & kept3 & w1 & w2 & w3 & H).
  exists ok1, ok2, ok3, kept1, kept2, kept3, w1, w2, w3.
  by repeat (split; [apply H|]).
Qed.

(** C5, as the code has it.  The newly constructed object has an empty watch
    set, and [AddObserver] on an empty watch set runs start-up, the three
    attempts in a row, before it hands the observer to the base class: so
    the first subscription starts the watchers.  Start-up is a no-op exactly
    when [keys_to_watch_] is non-empty: object, operating system and call
    log are left as they were, and a subscription then only reaches the base
    class.  When [keys_to_watch_] is empty, which is also the case after a
    start-up that could arm nothing and after every entry has been erased,
    start-up makes the three attempts again. *)
Theorem start_up_runs_while_empty :
  keys_to_watch_ (ProxyConfigServiceWin_new ParseFromString CreateDirect) = [] ∧
  (∀ observer (this : ProxyConfigServiceWin) w,
     keys_to_watch_ this = [] →
     ∃ (ok1 ok2 ok3 : bool) kept1 kept2 kept3 w1 w2 w3,
       watch_attempt HKEY_CURRENT_USER internet_settings w ok1 kept1 w1 ∧
       watch_attempt HKEY_LOCAL_MACHINE internet_settings w1 ok2 kept2 w2 ∧
       watch_attempt HKEY_LOCAL_MACHINE policies_internet_settings w2 ok3 kept3 w3 ∧
       StartWatchingRegistryForChanges this w =
         Done (set_keys_to_watch (kept1 ++ kept2 ++ kept3) this) w3 ∧
       AddObserver observer this w =
         Done (set_keys_to_watch (kept1 ++ kept2 ++ kept3) this)
           {| os := os w3;
              calls := calls w3 ++
                [Call_PollingProxyConfigService_AddObserver observer] |}) ∧
  (∀ (this : ProxyConfigServiceWin) w,
     keys_to_watch_ this ≠ [] →
     StartWatchingRegistryForChanges this w = Done this w) ∧
  (∀ observer (this : ProxyConfigServiceWin) w,
     keys_to_watch_ this ≠ [] →
     AddObserver observer this w =
       Done this
         {| os := os w;
            calls := calls w ++
              [Call_PollingProxyConfigService_AddObserver observer] |}).
Proof.
  split; [done|]. split; [|split].
  - intros observer this w Hempty.
    destruct (start_up_attempts this w Hempty)
      as (ok1 & ok2 & ok3 & kept1 & kept2 & kept3 & w1 & w2 & w3
          & A1 & A2 & A3 & _ & _ & _ & Hstart).
    exists ok1, ok2, ok3, kept1, kept2, kept3, w1, w2, w3.
    repeat (split; [done|]). unfold AddObserver, bind. by rewrite Hstart.
  - intros this w. apply StartWatchingRegistryForChanges_initialized.
  - intros observer this w Hne. unfold AddObserver, bind.
    by rewrite (StartWatchingRegistryForChanges_initialized this w Hne).
Qed.

(** A watch fire that finds its entry, in terms of what the operating system
    answers to the re-arming. *)
Lemma OnObjectSignaled_rearm
    object (this : ProxyConfigServiceWin) (w : World) (E : KeyEntry) :
  keys_to_watch_ this !! find_signalled object (keys_to_watch_ this) = Some E →
  ∃ (ok1 : bool) k o1,
    RegKey_StartWatching (key_ E) (os w) = (ok1, k, o1) ∧
    if ok1 then
      ∃ (ok2 : bool) wt o2,
        ObjectWatcher_StartWatching (RegKey_watch_event k) (watcher_ E) o1
          = (ok2, wt, o2) ∧
        OnObjectSignaled object this w =
          Done (set_keys_to_watch
                  (if ok2
                   then <[find_signalled object (keys_to_watch_ this) :=
                            {| key_ := k; watcher_ := wt |}]> (keys_to_watch_ this)
                   else delete (find_signalled object (keys_to_watch_ this))
                          (keys_to_watch_ this)) this)
               {| os := o2;
                  calls := calls w ++
                    [Call_RegKey_StartWatching (RegKey_watch_event k) true;
                     Call_ObjectWatcher_StartWatching (RegKey_watch_event k) ok2;
                     Call_CheckForChangesNow] |}
    else
      OnObjectSignaled object this w =
        Done (set_keys_to_watch
                (delete (find_signalled object (keys_to_watch_ this))
                   (keys_to_watch_ this)) this)
             {| os := o1;
                calls := calls w ++
                  [Call_RegKey_StartWatching (RegKey_watch_event k) false;
                   Call_CheckForChangesNow] |}.
Proof.
  intros Hit.
  assert (find_signalled object (keys_to_watch_ this) ≠ length (keys_to_watch_ this))
    as Hne by (apply lookup_lt_Some in Hit; lia).
  unfold OnObjectSignaled, DCHECK.
  rewrite (bool_decide_eq_false_2 _ Hne), andb_false_r.
  unfold bind at 1. unfold ret at 1. rewrite Hit.
  unfold KeyEntry_StartWatching, watch_event. unfold_monad.
  destruct (RegKey_StartWatching (key_ E) (os w)) as [[ok1 k] o1] eqn:Ewatch.
  exists ok1, k, o1. split; [done|]. destruct ok1; simpl.
  - destruct (ObjectWatcher_StartWatching (RegKey_watch_event k) (watcher_ E) o1)
      as [[ok2 wt] o2] eqn:Earm.
    exists ok2, wt, o2. split; [done|].
    destruct ok2; simpl; rewrite <- ?app_assoc; simpl; [done|].
    by rewrite delete_insert_same.
  - rewrite <- ?app_assoc. simpl. by rewrite delete_insert_same.
Qed.

(** Over a run, the watch set can only gain entries through registry keys
    being opened. *)
Lemma run_ops_account ops (this this' : ProxyConfigServiceWin) (w w' : World) :
  run_ops ops this w = Done this' w' →
  ∃ cs, calls w' = calls w ++ cs ∧
    (length (keys_to_watch_ this') + deletes cs
     ≤ length (keys_to_watch_ this) + length (creations cs))%nat.
Proof.
  revert this w. induction ops as [|op ops IH]; intros this w; simpl.
  - unfold ret. intros [= <- <-]. exists []. rewrite app_nil_r. split; [done|].
    change (deletes []) with 0%nat. simpl. lia.
  - unfold bind. destruct (run_op op this w) as [this1 w1|] eqn:Hop; [|done].
    intros Hrest. destruct (IH _ _ Hrest) as (cs2 & Hcs2 & Hle2).
    destruct (run_op_account _ _ _ _ _ Hop) as (cs1 & Hcs1 & Hle1).
    exists (cs1 ++ cs2). split; [by rewrite Hcs2, Hcs1, <- app_assoc|].
    rewrite deletes_app, creations_app, length_app. lia.
Qed.

(** A registry key is opened only by a subscription that finds the watch set
    empty. *)
Lemma run_op_creations op (this this' : ProxyConfigServiceWin) (w w' : World) :
  run_op op this w = Done this' w' →
  creations (new_calls w w') ≠ [] →
  keys_to_watch_ this = [] ∧ ∃ observer, op = Op_AddObserver observer.
Proof.
  destruct op as [observer|object]; simpl; intros Hrun Hcre.
  - split; [|eauto]. destruct (decide (keys_to_watch_ this = [])) as [|Hne]; [done|].
    exfalso. apply Hcre. unfold AddObserver, bind in Hrun.
    rewrite (StartWatchingRegistryForChanges_initialized this w Hne) in Hrun.
    unfold call, ret in Hrun. simpl in Hrun. injection Hrun as _ <-.
    by erewrite new_calls_app; [|reflexivity].
  - exfalso. apply Hcre.
    destruct (OnObjectSignaled_log _ _ _ _ _ Hrun)
      as (E & rearmed & E' & w1 & cs & _ & _ & Hcs & _ & _ & _ & Hcre0 & _ & _ & ->).
    erewrite new_calls_app; [|simpl; rewrite Hcs, <- app_assoc; reflexivity].
    by rewrite creations_app, Hcre0.
Qed.

(** C1, as the code has it.  A watch fire for a watched entry [E] (the first
    entry with the signalled watch event) re-arms [E] before anything else:
    it calls [RegKey::StartWatching] on [E]'s key and, if that succeeds,
    [ObjectWatcher::StartWatching] on the key's watch event.  If both
    succeed the re-armed entry takes [E]'s place; if either fails [E] is
    erased from [keys_to_watch_].  In every case the handler then calls
    [CheckForChangesNow()] exactly once and returns.  The erasure lasts
    until start-up runs again: over any later operations that open no
    registry key the watch set does not grow, and a registry key is opened
    only by a subscription that finds the watch set empty. *)
Theorem OnObjectSignaled_rearms_or_erases :
  (∀ object (this : ProxyConfigServiceWin) (w : World) (i : nat) (E : KeyEntry),
     keys_to_watch_ this !! i = Some E →
     watch_event E = object →
     (∀ j e, (j < i)%nat → keys_to_watch_ this !! j = Some e →
             watch_event e ≠ object) →
     ∃ (ok1 : bool) k o1,
       RegKey_StartWatching (key_ E) (os w) = (ok1, k, o1) ∧
       if ok1 then
         ∃ (ok2 : bool) wt o2,
           ObjectWatcher_StartWatching (RegKey_watch_event k) (watcher_ E) o1
             = (ok2, wt, o2) ∧
           OnObjectSignaled object this w =
             Done (set_keys_to_watch
                     (if ok2
                      then <[i := {| key_ := k; watcher_ := wt |}]>
                             (keys_to_watch_ this)
                      else delete i (keys_to_watch_ this)) this)
                  {| os := o2;
                     calls := calls w ++
                       [Call_RegKey_StartWatching (RegKey_watch_event k) true;
                        Call_ObjectWatcher_StartWatching (RegKey_watch_event k) ok2;
                        Call_CheckForChangesNow] |}
       else
         OnObjectSignaled object this w =
           Done (set_keys_to_watch (delete i (keys_to_watch_ this)) this)
                {| os := o1;
                   calls := calls w ++
                     [Call_RegKey_StartWatching (RegKey_watch_event k) false;
                      Call_CheckForChangesNow] |}) ∧
  (∀ object (this this' : ProxyConfigServiceWin) (w w' : World),
     OnObjectSignaled object this w = Done this' w' →
     checks (new_calls w w') = 1%nat) ∧
  (∀ ops (this this' : ProxyConfigServiceWin) (w w' : World),
     run_ops ops this w = Done this' w' →
     creations (new_calls w w') = [] →
     (length (keys_to_watch_ this') ≤ length (keys_to_watch_ this))%nat) ∧
  (∀ op (this this' : ProxyConfigServiceWin) (w w' : World),
     run_op op this w = Done this' w' →
     creations (new_calls w w') ≠ [] →
     keys_to_watch_ this = [] ∧ ∃ observer, op = Op_AddObserver observer).
Proof.
  split; [|split; [|split]].
  - intros object this w i E Hi HE Hfirst.
    pose proof (find_signalled_first object _ i E Hi HE Hfirst) as Hit.
    destruct (OnObjectSignaled_rearm object this w E) as (ok1 & k & o1 & Hwatch & H).
    { by rewrite Hit. }
    rewrite Hit in H. by exists ok1, k, o1.
  - intros object this this' w w' Hrun.
    destruct (OnObjectSignaled_log _ _ _ _ _ Hrun)
      as (E & rearmed & E' & w1 & cs & _ & _ & Hcs & Hchecks & _ & _ & _ & _ & _ & ->).
    erewrite new_calls_app; [|simpl; rewrite Hcs, <- app_assoc; reflexivity].
    by rewrite checks_app, Hchecks.
  - intros ops this this' w w' Hrun Hcre.
    destruct (run_ops_account _ _ _ _ _ Hrun) as (cs & Hcs & Hle).
    rewrite (new_calls_app w w' cs Hcs) in Hcre. rewrite Hcre in Hle.
    simpl in Hle. lia.
  - apply run_op_creations.
Qed.

End WatchSetFacts.

(** ** Watch fires and start-up at concrete runs of the scripted system *)

Section WatchSetRuns.

Import Scripted.

(** A run that comes to its end on evaluation did not stop short. *)
Ltac not_crashed H :=
  exfalso;
  match type of H with
  | ?r = Crash _ _ =>
      assert (succeeded r = true) as Hs by (vm_compute; reflexivity);
      rewrite H in Hs; discriminate Hs
  end.

(** The first subscription can arm only the per-user key; that key fires and
    cannot be re-armed, so its entry is erased; the next subscription finds
    the watch set empty and arms the per-user key again. *)
Lemma erased_location_watched_again :
  ¬ erased_location_stays_unwatched (W32 := win32) parse direct.
Proof.
  intros Hclaim.
  pose (w := world [true; true; true; false; false; false]).
  assert (match run_ops [Op_AddObserver 7] service w with
          | Done this w0 =>
              match OnObjectSignaled 101 this w0 with
              | Done this' w' =>
                  match run_ops [Op_AddObserver 8] this' w' with
                  | Done this'' w'' =>
                      watch_armed_for HKEY_CURRENT_USER internet_settings
                        (new_calls w w0)
                      && (length (keys_to_watch_ this) =? 1)%nat
                      && (length (keys_to_watch_ this') =? 0)%nat
                      && watch_armed_for HKEY_CURRENT_USER internet_settings
                           (new_calls w' w'')
                  | Crash _ _ => false
                  end
              | Crash _ _ => false
              end
          | Crash _ _ => false
          end = true) as Hobs by (vm_compute; reflexivity).
  destruct (run_ops [Op_AddObserver 7] service w) as [this w0|] eqn:H0;
    [|discriminate Hobs].
  destruct (OnObjectSignaled 101 this w0) as [this' w'|] eqn:H1;
    [|discriminate Hobs].
  destruct (run_ops [Op_AddObserver 8] this' w') as [this'' w''|] eqn:H2;
    [|discriminate Hobs].
  apply andb_prop in Hobs as [Hobs Hagain].
  apply andb_prop in Hobs as [Hobs Hnone].
  apply andb_prop in Hobs as [Hfirst Hone].
  apply Nat.eqb_eq in Hone, Hnone.
  assert (keys_to_watch_ this' = []) as Hempty
    by (by destruct (keys_to_watch_ this')).
  pose proof (Hclaim HKEY_CURRENT_USER internet_settings 7 w this w0 101 this' w'
                [Op_AddObserver 8] this'' w'' H0 Hfirst Hone H1 Hempty H2) as Hnever.
  rewrite Hnever in Hagain. discriminate Hagain.
Qed.

(** The first subscription can arm nothing; start-up run again arms all three
    keys. *)
Lemma start_up_not_idempotent :
  ¬ start_up_idempotent (W32 := win32) parse direct.
Proof.
  intros Hclaim.
  pose (w := world [false; false; false]).
  assert (match AddObserver 7 service w with
          | Done this1 w1 =>
              match StartWatchingRegistryForChanges this1 w1 with
              | Done this2 _ =>
                  (length (keys_to_watch_ this1) =? 0)%nat
                  && (length (keys_to_watch_ this2) =? 3)%nat
              | Crash _ _ => false
              end
          | Crash _ _ => false
          end = true) as Hobs by (vm_compute; reflexivity).
  destruct (AddObserver 7 service w) as [this1 w1|] eqn:H1; [|discriminate Hobs].
  rewrite (Hclaim 7 w this1 w1 H1) in Hobs.
  apply andb_prop in Hobs as [Hnone Hthree].
  apply Nat.eqb_eq in Hnone, Hthree. lia.
Qed.

(** The second of three entries fires and the registry watch cannot be armed
    again; the same fire followed by a subscription; and a first
    subscription. *)
Lemma OnObjectSignaled_rearms_or_erases_run :
  (∃ (ok1 : bool) k o1,
     RegKey_StartWatching (key_ (watched 102 103)) (os (world [false])) = (ok1, k, o1) ∧
     if ok1 then
       ∃ (ok2 : bool) wt o2,
         ObjectWatcher_StartWatching (RegKey_watch_event k)
           (watcher_ (watched 102 103)) o1 = (ok2, wt, o2) ∧
         OnObjectSignaled 103 armed_service (world [false]) =
           Done (set_keys_to_watch
                   (if ok2
                    then <[1%nat := {| key_ := k; watcher_ := wt |}]>
                           (keys_to_watch_ armed_service)
                    else delete 1%nat (keys_to_watch_ armed_service)) armed_service)
                {| os := o2;
                   calls := calls (world [false]) ++
                     [Call_RegKey_StartWatching (RegKey_watch_event k) true;
                      Call_ObjectWatcher_StartWatching (RegKey_watch_event k) ok2;
                      Call_CheckForChangesNow] |}
     else
       OnObjectSignaled 103 armed_service (world [false]) =
         Done (set_keys_to_watch (delete 1%nat (keys_to_watch_ armed_service))
                 armed_service)
              {| os := o1;
                 calls := calls (world [false]) ++
                   [Call_RegKey_StartWatching (RegKey_watch_event k) false;
                    Call_CheckForChangesNow] |}) ∧
  match OnObjectSignaled 103 armed_service (world [false]) with
  | Done _ w' => checks (new_calls (world [false]) w') = 1%nat
  | Crash _ _ => False
  end ∧
  match run_ops [Op_OnObjectSignaled 103; Op_AddObserver 8] armed_service
          (world [false]) with
  | Done this' _ =>
      (length (keys_to_watch_ this') ≤ length (keys_to_watch_ armed_service))%nat
  | Crash _ _ => False
  end ∧
  (keys_to_watch_ service = [] ∧ ∃ observer, Op_AddObserver 7 = Op_AddObserver observer).
Proof.
  destruct (OnObjectSignaled_rearms_or_erases (W32 := win32))
    as (Hfire & Honce & Hstays & Hopen).
  split; [|split; [|split]].
  - apply (Hfire 103 armed_service (world [false]) 1%nat (watched 102 103)).
    + reflexivity.
    + reflexivity.
    + intros [|[|j]] e Hj; [|lia|lia]. simpl. intros [= <-]. vm_compute. discriminate.
  - destruct (OnObjectSignaled 103 armed_service (world [false]))
      as [this' w'|f w'] eqn:Hrun.
    + exact (Honce _ _ _ _ _ Hrun).
    + not_crashed Hrun.
  - assert (match run_ops [Op_OnObjectSignaled 103; Op_AddObserver 8] armed_service
                    (world [false]) with
            | Done _ w' => (length (creations (new_calls (world [false]) w')) =? 0)%nat
            | Crash _ _ => false
            end = true) as Hobs by (vm_compute; reflexivity).
    destruct (run_ops _ armed_service (world [false])) as [this' w'|f w'] eqn:Hrun;
      [|discriminate Hobs].
    apply Nat.eqb_eq in Hobs. apply (Hstays _ _ _ _ _ Hrun).
    by destruct (creations _).
  - assert (match run_op (Op_AddObserver 7) service (world []) with
            | Done _ w' => negb (length (creations (new_calls (world []) w')) =? 0)%nat
            | Crash _ _ => false
            end = true) as Hobs by (vm_compute; reflexivity).
    destruct (run_op (Op_AddObserver 7) service (world [])) as [this' w'|f w'] eqn:Hrun;
      [|discriminate Hobs].
    apply (Hopen _ _ _ _ _ Hrun). intros Hnone. rewrite Hnone in Hobs.
    discriminate Hobs.
Defined.

(** Start-up where only the per-user key can be watched. *)
Lemma StartWatchingRegistryForChanges_three_attempts_run :
  keys_to_watch_ service = [] ∧
  ∃ (ok1 ok2 ok3 : bool) kept1 kept2 kept3 w1 w2 w3,
    watch_attempt HKEY_CURRENT_USER internet_settings
      (world [true; true; true; false; false]) ok1 kept1 w1 ∧
    watch_attempt HKEY_LOCAL_MACHINE internet_settings w1 ok2 kept2 w2 ∧
    watch_attempt HKEY_LOCAL_MACHINE policies_internet_settings w2 ok3 kept3 w3 ∧
    AddKeyToWatchList HKEY_CURRENT_USER internet_settings service
        (world [true; true; true; false; false]) =
      Done (ok1, set_keys_to_watch kept1 service) w1 ∧
    AddKeyToWatchList HKEY_LOCAL_MACHINE internet_settings
        (set_keys_to_watch kept1 service) w1 =
      Done (ok2, set_keys_to_watch (kept1 ++ kept2) service) w2 ∧
    AddKeyToWatchList HKEY_LOCAL_MACHINE policies_internet_settings
        (set_keys_to_watch (kept1 ++ kept2) service) w2 =
      Done (ok3, set_keys_to_watch (kept1 ++ kept2 ++ kept3) service) w3 ∧
    StartWatchingRegistryForChanges service (world [true; true; true; false; false]) =
      Done (set_keys_to_watch (kept1 ++ kept2 ++ kept3) service) w3 ∧
    keys_to_watch_ (set_keys_to_watch (kept1 ++ kept2 ++ kept3) service)
      = kept1 ++ kept2 ++ kept3.
Proof.
  split; [reflexivity|].
  apply (StartWatchingRegistryForChanges_three_attempts
           service (world [true; true; true; false; false])).
  reflexivity.
Defined.

(** A first subscription that can arm nothing, and a later subscription to a
    service that is watching. *)
Lemma start_up_runs_while_empty_run :
  (∃ (ok1 ok2 ok3 : bool) kept1 kept2 kept3 w1 w2 w3,
     watch_attempt HKEY_CURRENT_USER internet_settings
       (world [false; false; false]) ok1 kept1 w1 ∧
     watch_attempt HKEY_LOCAL_MACHINE internet_settings w1 ok2 kept2 w2 ∧
     watch_attempt HKEY_LOCAL_MACHINE policies_internet_settings w2 ok3 kept3 w3 ∧
     StartWatchingRegistryForChanges service (world [false; false; false]) =
       Done (set_keys_to_watch (kept1 ++ kept2 ++ kept3) service) w3 ∧
     AddObserver 7 service (world [false; false; false]) =
       Done (set_keys_to_watch (kept1 ++ kept2 ++ kept3) service)
         {| os := os w3;
            calls := calls w3 ++ [Call_PollingProxyConfigService_AddObserver 7] |}) ∧
  StartWatchingRegistryForChanges armed_service (world [false]) =
    Done armed_service (world [false]) ∧
  AddObserver 8 armed_service (world [false]) =
    Done armed_service
      {| os := os (world [false]);
         calls := calls (world [false]) ++
           [Call_PollingProxyConfigService_AddObserver 8] |}.
Proof.
  destruct (start_up_runs_while_empty (W32 := win32) parse direct)
    as (_ & Hempty & Hstart & Hadd).
  split; [|split].
  - apply (Hempty 7 service (world [false; false; false])). reflexivity.
  - apply Hstart. discriminate.
  - apply (Hadd 8 armed_service (world [false])). discriminate.
Defined.

End WatchSetRuns.
